(** * TradeSphere order service: checkout sessions, coupons and the
      payment webhook

    A shallow embedding of [order.controller.ts] (the order service's
    controller: [createPaymentSession], [verifyPaymentSession],
    [createOrder], [updateDeliveryStatus] and [verifyCouponCode]) and the
    properties of the checkout pipeline that the specification states
    about it.

    Conventions of the embedding.
    - A JavaScript number is an IEEE 754 double, the kernel's [float]:
      sums, products and quotients round as the machine rounds them, and
      [exact] gives the rational value of a finite double where a
      statement needs it.  A number that has travelled as JSON is a double
      or [null]; NaN, which JSON cannot carry, stands for [null] in such a
      field.  Quantities are integers.
    - Redis, Prisma (MongoDB), Stripe, the mailer and the Kafka logger are
      external collaborators.  Their data lives in one [World] record, and
      every call to one of them is appended to the [calls] trace, so that
      "no further call is made" is a statement about that trace.
    - A handler is a function [World -> World * Response].  Code that can
      throw runs in the monad [M]; the world reached before the throw is
      kept, as it is in JavaScript.
    - Timestamps ([new Date()], [Date.now()]) and the 600 s expiry of a
      Redis key are real time and are left out of the records; the expiry
      requested is still visible in the trace. *)

From Stdlib Require Import Ascii String QArith Qround Qminmax Qabs Lqa.
From Stdlib Require Import PrimFloat SpecFloat FloatOps.
From stdpp Require Import gmap strings list pretty.

Local Open Scope string_scope.
Local Open Scope list_scope.

(** ** Numbers *)

(** The double nearest to an integer: what [JSON.parse] makes of an
    integer literal. *)
Definition ofZ (z : Z) : float :=
  SF2Prim (binary_normalize prec emax z 0 false).

(** The value of a double on the extended real line; NaN has none. *)
Inductive Real :=
| NegInfinity
| Finite (q : Q)
| PosInfinity.

Definition real (x : float) : option Real :=
  match Prim2SF x with
  | S754_nan => None
  | S754_infinity s => Some (if s then NegInfinity else PosInfinity)
  | S754_zero _ => Some (Finite 0)
  | S754_finite s m e =>
      let v := match e with
               | Z0 => inject_Z (Z.pos m)
               | Z.pos p => inject_Z (Z.pos m * 2 ^ Z.pos p)
               | Z.neg p => (Z.pos m # 2 ^ p)%Q
               end in
      Some (Finite (if s then (- v)%Q else v))
  end.

(** The value of a finite double. *)
Definition exact (x : float) : option Q :=
  match real x with
  | Some (Finite q) => Some q
  | _ => None
  end.

(** [a < b] on the extended real line. *)
Definition Real_ltb (a b : Real) : bool :=
  match a, b with
  | NegInfinity, NegInfinity => false
  | NegInfinity, _ => true
  | Finite _, NegInfinity => false
  | Finite p, Finite q => negb (Qle_bool q p)
  | Finite _, PosInfinity => true
  | PosInfinity, _ => false
  end.

(** [x > 0] *)
Definition greaterThanZero (x : float) : bool :=
  match real x with
  | Some r => Real_ltb (Finite 0) r
  | None => false
  end.

(** The truth value of a number: zero, of either sign, and NaN are
    falsy, and so is [null]. *)
Definition truthy (x : float) : bool :=
  match Prim2SF x with
  | S754_zero _ | S754_nan => false
  | _ => true
  end.

(** [x || 0] *)
Definition or_zero (x : float) : float := if truthy x then x else 0%float.

(** [ToNumber] on a field read from JSON, as arithmetic applies it:
    [null] counts as 0. *)
Definition ToNumber (x : float) : float := if is_nan x then 0%float else x.

(** [JSON.parse(JSON.stringify(x))] on a number: a finite double comes
    back as it is, but for the sign of zero, which is not printed;
    anything else is written as [null]. *)
Definition JSON_number (x : float) : float :=
  match Prim2SF x with
  | S754_zero _ => 0%float
  | S754_finite _ _ _ => x
  | _ => nan
  end.

(** [Math.min(a, b)]: NaN when either is NaN, and the negative zero
    counts as less than the positive one. *)
Definition Math_min (a b : float) : float :=
  match real a, real b with
  | Some x, Some y =>
      if Real_ltb x y then a
      else if Real_ltb y x then b
      else match Prim2SF a with
           | S754_zero true => a
           | _ => b
           end
  | _, _ => nan
  end.

(** ** Data *)

(** A cart line as the client posts it.  [ci_selectedOptions] is a JSON
    object, kept as its key/value pairs in the order [JSON.stringify]
    prints them; [None] is a missing field.  [ci_discount_codes] holds the
    ids of the discount codes attached to the product (a missing field is
    the empty list). *)
Record CartItem := mkCartItem {
  ci_id : string;
  ci_title : option string;
  ci_quantity : Z;
  ci_sale_price : float;
  ci_shopId : string;
  ci_selectedOptions : option (list (string * string));
  ci_discount_codes : list string
}.

(** The coupon object the client attaches to a session.  The server stores
    it as posted. *)
Record Coupon := mkCoupon {
  cp_code : option string;
  cp_discountedProductId : option string;
  cp_discountPercent : float;
  cp_discountAmount : float
}.

Record SellerData := mkSellerData {
  sd_shopId : string;
  sd_sellerId : string;
  sd_stripeAccountId : option string
}.

(** The value kept under a [payment-session:] key ([sessionData]). *)
Record Session := mkSession {
  s_userId : string;
  s_cart : list CartItem;
  s_sellers : list SellerData;
  s_totalAmount : float;
  s_shippingAddressId : option string;
  s_coupon : option Coupon
}.

Record OrderItem := mkOrderItem {
  oi_productId : string;
  oi_quantity : Z;
  oi_price : float;
  oi_selectedOptions : option (list (string * string))
}.

Record Order := mkOrder {
  o_id : string;
  o_userId : string;
  o_shopId : string;
  o_total : float;
  o_status : string;
  o_shippingAddressId : option string;
  o_couponCode : option string;
  o_discountAmount : float;
  o_items : list OrderItem
}.

Record User := mkUser { u_name : string; u_email : string }.

Record Shop := mkShop {
  sh_sellerId : string;
  sh_name : string;
  sh_stripeId : option string
}.

Record Product := mkProduct { p_stock : Z; p_totalSales : Z }.

Record ProductAnalytics := mkProductAnalytics {
  pa_shopId : string;
  pa_purchases : Z
}.

Record Action := mkAction {
  a_productId : string;
  a_shopId : string;
  a_action : string
}.

(** A row of [discount_codes]; the table is keyed by [discountCode]. *)
Record Discount := mkDiscount {
  d_id : string;
  d_discountType : string;
  d_discountValue : float
}.

Record Notification := mkNotification {
  n_title : string;
  n_message : string;
  n_creatorId : string;
  n_receiverId : string;
  n_redirect_link : string
}.

Record Email := mkEmail {
  e_to : option string;
  e_subject : string;
  e_template : string;
  e_name : option string;
  e_cart : list CartItem;
  e_totalAmount : float;
  e_trackingUrl : string
}.

Record LogEntry := mkLogEntry {
  l_type : string;
  l_message : string;
  l_source : string
}.

(** What a handler can throw or hand to [next]. *)
Inductive Error :=
| ValidationError (msg : string)
| NotFoundError (msg : string)
| TypeError (msg : string)
| PrismaError (msg : string).

Definition error_message (e : Error) : string :=
  match e with
  | ValidationError m | NotFoundError m | TypeError m | PrismaError m => m
  end.

(** One entry of the trace per call to a collaborator. *)
Inductive Call :=
| RedisKeys (pattern : string)
| RedisGet (key : string)
| RedisDel (key : string)
| RedisSetex (key : string) (ttl : Z)
| StripeConstructEvent
| DbFindUnique (table key : string)
| DbFindMany (table : string) (keys : list string)
| DbCreate (table : string)
| DbUpdate (table key : string)
| DbUpsert (table key : string)
| SendEmail
| SendLog.

Record World := mkWorld {
  redis : gmap string Session;
  users : gmap string User;
  shops : gmap string Shop;
  products : gmap string Product;
  discounts : gmap string Discount;
  productAnalytics : gmap string ProductAnalytics;
  userAnalytics : gmap string (list Action);
  orders : list Order;
  notifications : list Notification;
  emails : list Email;
  logs : list LogEntry;
  calls : list Call
}.

(** Field updates of the world. *)
Definition with_redis (x : gmap string Session) (w : World) : World :=
  mkWorld x (users w) (shops w) (products w) (discounts w)
    (productAnalytics w) (userAnalytics w) (orders w) (notifications w)
    (emails w) (logs w) (calls w).
Definition with_products (x : gmap string Product) (w : World) : World :=
  mkWorld (redis w) (users w) (shops w) x (discounts w)
    (productAnalytics w) (userAnalytics w) (orders w) (notifications w)
    (emails w) (logs w) (calls w).
Definition with_productAnalytics (x : gmap string ProductAnalytics)
    (w : World) : World :=
  mkWorld (redis w) (users w) (shops w) (products w) (discounts w)
    x (userAnalytics w) (orders w) (notifications w)
    (emails w) (logs w) (calls w).
Definition with_userAnalytics (x : gmap string (list Action))
    (w : World) : World :=
  mkWorld (redis w) (users w) (shops w) (products w) (discounts w)
    (productAnalytics w) x (orders w) (notifications w)
    (emails w) (logs w) (calls w).
Definition with_orders (x : list Order) (w : World) : World :=
  mkWorld (redis w) (users w) (shops w) (products w) (discounts w)
    (productAnalytics w) (userAnalytics w) x (notifications w)
    (emails w) (logs w) (calls w).
Definition with_notifications (x : list Notification) (w : World) : World :=
  mkWorld (redis w) (users w) (shops w) (products w) (discounts w)
    (productAnalytics w) (userAnalytics w) (orders w) x
    (emails w) (logs w) (calls w).
Definition with_emails (x : list Email) (w : World) : World :=
  mkWorld (redis w) (users w) (shops w) (products w) (discounts w)
    (productAnalytics w) (userAnalytics w) (orders w) (notifications w)
    x (logs w) (calls w).
Definition with_logs (x : list LogEntry) (w : World) : World :=
  mkWorld (redis w) (users w) (shops w) (products w) (discounts w)
    (productAnalytics w) (userAnalytics w) (orders w) (notifications w)
    (emails w) x (calls w).
Definition with_calls (x : list Call) (w : World) : World :=
  mkWorld (redis w) (users w) (shops w) (products w) (discounts w)
    (productAnalytics w) (userAnalytics w) (orders w) (notifications w)
    (emails w) (logs w) x.

(** The world without its trace: the data a handler can change. *)
Definition data (w : World) : World := with_calls [] w.

(** ** The monad of handler bodies *)

Definition M (A : Type) : Type := World → World * (Error + A).

#[export] Instance M_ret : MRet M := λ A a w, (w, inr a).
#[export] Instance M_bind : MBind M := λ A B f c w,
  match c w with
  | (w1, inl e) => (w1, inl e)
  | (w1, inr a) => f a w1
  end.

Definition throw {A} (e : Error) : M A := λ w, (w, inl e).
Definition gets {A} (f : World → A) : M A := λ w, (w, inr (f w)).
Definition modify (f : World → World) : M unit := λ w, (f w, inr tt).
Definition call (c : Call) : M unit :=
  modify (λ w, with_calls (calls w ++ [c]) w).

(** [for (const x of l) { f x }] *)
Fixpoint forM_ {A} (l : list A) (f : A → M unit) : M unit :=
  match l with
  | [] => mret tt
  | x :: l' => f x ;; forM_ l' f
  end.

(** ** Collaborators *)

(** [redis.keys(prefix + "*")]: the stored keys that start with [prefix],
    in the order the store enumerates them. *)
Definition redis_keys (prefix : string) : M (list string) :=
  call (RedisKeys (prefix +:+ "*")) ;;
  gets (λ w, filter (λ k, String.prefix prefix k = true)
               (fst <$> map_to_list (redis w))).

Definition redis_get (key : string) : M (option Session) :=
  call (RedisGet key) ;; gets (λ w, redis w !! key).

Definition redis_del (key : string) : M unit :=
  call (RedisDel key) ;; modify (λ w, with_redis (delete key (redis w)) w).

Definition redis_setex (key : string) (ttl : Z) (v : Session) : M unit :=
  call (RedisSetex key ttl) ;;
  modify (λ w, with_redis (<[key := v]> (redis w)) w).

Definition users_findUnique (userId : string) : M (option User) :=
  call (DbFindUnique "users" userId) ;; gets (λ w, users w !! userId).

(** [prisma.shops.findMany({ where: { id: { in: ids } } })]: the shops
    among [ids] that exist, each with its id. *)
Definition shops_findMany (ids : list string) : M (list (string * Shop)) :=
  call (DbFindMany "shops" ids) ;;
  gets (λ w, omap (λ i, (λ s, (i, s)) <$> shops w !! i) ids).

Definition discount_codes_findUnique (code : string) : M (option Discount) :=
  call (DbFindUnique "discount_codes" code) ;;
  gets (λ w, discounts w !! code).

(** [prisma.products.update] with [stock: {decrement}] and
    [totalSales: {increment}]; Prisma throws when no row has the id. *)
Definition products_update (productId : string) (qty : Z) : M unit :=
  call (DbUpdate "products" productId) ;;
  p ← gets (λ w, products w !! productId) ;
  match p with
  | None => throw (PrismaError "Record to update not found.")
  | Some p =>
      modify (λ w, with_products
        (<[productId := mkProduct (p_stock p - qty) (p_totalSales p + qty)]>
           (products w)) w)
  end.

Definition productAnalytics_upsert (productId shopId : string) (qty : Z)
    : M unit :=
  call (DbUpsert "productAnalytics" productId) ;;
  modify (λ w, with_productAnalytics
    (match productAnalytics w !! productId with
     | None => <[productId := mkProductAnalytics shopId qty]>
                 (productAnalytics w)
     | Some a => <[productId :=
                    mkProductAnalytics (pa_shopId a) (pa_purchases a + qty)]>
                   (productAnalytics w)
     end) w).

Definition userAnalytics_findUnique (userId : string)
    : M (option (list Action)) :=
  call (DbFindUnique "userAnalytics" userId) ;;
  gets (λ w, userAnalytics w !! userId).

Definition userAnalytics_update (userId : string) (actions : list Action)
    : M unit :=
  call (DbUpdate "userAnalytics" userId) ;;
  modify (λ w, with_userAnalytics (<[userId := actions]> (userAnalytics w)) w).

Definition userAnalytics_create (userId : string) (actions : list Action)
    : M unit :=
  call (DbCreate "userAnalytics") ;;
  modify (λ w, with_userAnalytics (<[userId := actions]> (userAnalytics w)) w).

Definition notifications_create (n : Notification) : M unit :=
  call (DbCreate "notifications") ;;
  modify (λ w, with_notifications (notifications w ++ [n]) w).

Definition sendEmail (e : Email) : M unit :=
  call SendEmail ;; modify (λ w, with_emails (emails w ++ [e]) w).

Definition sendLog (l : LogEntry) : M unit :=
  call SendLog ;; modify (λ w, with_logs (logs w ++ [l]) w).

Definition orders_findUnique (orderId : string) : M (option Order) :=
  call (DbFindUnique "orders" orderId) ;;
  gets (λ w, list_find (λ o, o_id o = orderId) (orders w) ≫= λ p, Some p.2).

Definition set_status (status : string) (o : Order) : Order :=
  mkOrder (o_id o) (o_userId o) (o_shopId o) (o_total o) status
    (o_shippingAddressId o) (o_couponCode o) (o_discountAmount o) (o_items o).

(** [prisma.orders.update({ where: { id }, data: { status } })] *)
Definition orders_update (orderId status : string) : M Order :=
  call (DbUpdate "orders" orderId) ;;
  r ← gets (λ w, list_find (λ o, o_id o = orderId) (orders w)) ;
  match r with
  | None => throw (PrismaError "Record to update not found.")
  | Some (i, o) =>
      modify (λ w, with_orders (<[i := set_status status o]> (orders w)) w) ;;
      mret (set_status status o)
  end.

(** ** Requests and responses *)

(** An amount in a reply.  [Number x] is the number itself, as
    [res.json] writes it.  The other two are the texts that [toFixed(2)]
    returns: [Decimal2 negative n] is [n] hundredths printed with two
    decimals, after a minus sign when [negative] ("30.00" is
    [Decimal2 false 3000]); [NumberText x] is the text of [String(x)],
    which [toFixed] returns for NaN, for the infinities and for a number
    of 10^21 or more in size. *)
Inductive Amount :=
| Number (x : float)
| Decimal2 (negative : bool) (hundredths : N)
| NumberText (x : float).

(** The hundredths a two-decimal text stands for. *)
Definition amount_hundredths (a : Amount) : option Z :=
  match a with
  | Decimal2 negative n => Some (if negative then - Z.of_N n else Z.of_N n)%Z
  | _ => None
  end.

(** The value a reader of the reply gets from the amount. *)
Definition amount_value (a : Amount) : option Q :=
  match a with
  | Number x | NumberText x => exact x
  | Decimal2 _ _ => (λ n, n # 100) <$> amount_hundredths a
  end.

Inductive Body :=
| BSessionId (sessionId : option string)
| BReceived
| BError (error : string)
| BCoupon (valid : bool) (discount : float) (discountAmount : Amount)
    (discountedProductId discountType : option string) (message : string)
| BOrderUpdated (message : string) (order : Order).

(** [res.status(n).send(text)], [res.status(n).json(body)] or
    [next(error)]. *)
Inductive Response :=
| Send (status : nat) (text : string)
| Json (status : nat) (body : Body)
| Next (e : Error).

Record StripeEvent := mkStripeEvent {
  ev_type : string;
  ev_sessionId : string;
  ev_userId : string
}.

Record WebhookRequest := mkWebhookRequest {
  wr_stripe_signature : option string;
  wr_rawBody : string
}.

Record SessionRequest := mkSessionRequest {
  sr_userId : string;
  sr_cart : option (list CartItem);
  sr_selectedAddressId : option string;
  sr_coupon : option Coupon
}.

(** [wq_couponCode] is the empty string when the field is missing: [!x]
    holds of both. *)
Record CouponRequest := mkCouponRequest {
  wq_userId : option string;
  wq_couponCode : string;
  wq_cart : list CartItem
}.

(** Both fields are the empty string when missing. *)
Record StatusRequest := mkStatusRequest {
  ur_orderId : string;
  ur_deliveryStatus : string
}.

(** [try { body } catch (error) { handler }] around a whole controller. *)
Definition try_catch (body : M Response) (handler : Error → M Response)
    : World → World * Response := λ w,
  match body w with
  | (w1, inr r) => (w1, r)
  | (w1, inl e) =>
      match handler e w1 with
      | (w2, inr r) => (w2, r)
      | (w2, inl e') => (w2, Next e')
      end
  end.

(** ** Pure parts of the controller *)

(** [x || null] on an optional string: the empty string is falsy. *)
Definition or_null (x : option string) : option string :=
  match x with
  | Some "" => None
  | _ => x
  end.

(** [items.reduce((sum, p) => sum + p.quantity * p.sale_price, 0)] *)
Definition lineTotal (items : list CartItem) : float :=
  fold_left
    (λ sum p, (sum + ofZ (ci_quantity p) * ToNumber (ci_sale_price p))%float)
    items 0%float.

(** One step of the [reduce] that builds [shopGrouped]: push the item on
    its shop's array, creating the array at the end of the object when the
    shop is new. *)
Fixpoint group_push (acc : list (string * list CartItem)) (item : CartItem)
    : list (string * list CartItem) :=
  match acc with
  | [] => [(ci_shopId item, [item])]
  | (k, v) :: acc' =>
      if String.eqb k (ci_shopId item) then (k, v ++ [item]) :: acc'
      else (k, v) :: group_push acc' item
  end.

(** The properties the [reduce] has created, in the order of their
    creation. *)
Definition shopEntries (cart : list CartItem)
    : list (string * list CartItem) :=
  fold_left group_push cart [].

(** The value of a string of decimal digits. *)
Fixpoint digits (acc : N) (s : string) : option N :=
  match s with
  | EmptyString => Some acc
  | String c s' =>
      let d := N_of_ascii c in
      if (48 <=? d)%N && (d <=? 57)%N
      then digits (10 * acc + (d - 48)) s'
      else None
  end.

(** A key is an array index when it is the canonical text of an integer
    below 2^32 - 1. *)
Definition arrayIndex (key : string) : option N :=
  match key with
  | EmptyString => None
  | String c rest =>
      if Ascii.eqb c "0"%char then
        match rest with EmptyString => Some 0%N | _ => None end
      else
        match digits 0 key with
        | Some n => if (n <? 4294967295)%N then Some n else None
        | None => None
        end
  end.

(** A property put at its place among those already in ascending
    order. *)
Fixpoint insert_index {A} (i : N) (x : A) (l : list (N * A)) : list (N * A) :=
  match l with
  | [] => [(i, x)]
  | (j, y) :: l' =>
      if (i <=? j)%N then (i, x) :: (j, y) :: l'
      else (j, y) :: insert_index i x l'
  end.

(** The properties whose key is an array index, in ascending order. *)
Definition indexedEntries {A} (entries : list (string * A))
    : list (N * (string * A)) :=
  foldr (λ e sorted,
    match arrayIndex e.1 with
    | Some i => insert_index i e sorted
    | None => sorted
    end) [] entries.

(** The own properties of a plain object in the order in which
    [for ... in] and [Object.keys] visit them: the array indices first,
    in ascending order, then the other keys in the order of their
    creation. *)
Definition ownKeysOrder {A} (entries : list (string * A))
    : list (string * A) :=
  (snd <$> indexedEntries entries)
  ++ filter (λ e, arrayIndex e.1 = None) entries.

(** [shopGrouped], as the loops over it see it. *)
Definition shopGrouped (cart : list CartItem)
    : list (string * list CartItem) :=
  ownKeysOrder (shopEntries cart).

(** The names every plain object inherits from [Object.prototype]. *)
Definition objectPrototypeKeys : list string :=
  ["constructor"; "__defineGetter__"; "__defineSetter__"; "hasOwnProperty";
   "__lookupGetter__"; "__lookupSetter__"; "isPrototypeOf";
   "propertyIsEnumerable"; "toString"; "valueOf"; "__proto__";
   "toLocaleString"].

(** [cart.reduce((acc, item) => { ... }, {})].  Under an inherited name
    [acc[item.shopId]] is the inherited member: it is truthy, so no array
    is created, and it has no [push]. *)
Definition groupByShop (cart : list CartItem)
    : M (list (string * list CartItem)) :=
  if existsb (λ item,
       existsb (String.eqb (ci_shopId item)) objectPrototypeKeys) cart
  then throw (TypeError "acc[item.shopId].push is not a function")
  else mret (shopGrouped cart).

(** [shopGrouped[shopId]] *)
Definition group_items (grouped : list (string * list CartItem))
    (shopId : string) : list CartItem :=
  match find (λ g, String.eqb g.1 shopId) grouped with
  | Some g => g.2
  | None => []
  end.

(** The guard of "apply discount if applicable" and the [find] under it:
    the coupon and the line it applies to, when there is one. *)
Definition discountedItem (coupon : option Coupon)
    (orderItems : list CartItem) : option (Coupon * CartItem) :=
  match coupon with
  | Some c =>
      match cp_discountedProductId c with
      | Some pid =>
          if negb (String.eqb pid "")
             && existsb (λ item, String.eqb (ci_id item) pid) orderItems
          then
            match find (λ item, String.eqb (ci_id item) pid) orderItems with
            | Some item => Some (c, item)
            | None => None
            end
          else None
      | None => None
      end
  | None => None
  end.

(** [coupon.discountPercent > 0 ? price * quantity * percent / 100
                                : coupon.discountAmount], as
    [orderTotal -= discount] takes it. *)
Definition discountOf (c : Coupon) (item : CartItem) : float :=
  if greaterThanZero (cp_discountPercent c)
  then (ToNumber (ci_sale_price item) * ofZ (ci_quantity item)
          * cp_discountPercent c / 100)%float
  else ToNumber (cp_discountAmount c).

(** [orderTotal] as it is when the order is created. *)
Definition orderTotalOf (coupon : option Coupon)
    (orderItems : list CartItem) : float :=
  match discountedItem coupon orderItems with
  | Some (c, item) => (lineTotal orderItems - discountOf c item)%float
  | None => lineTotal orderItems
  end.

Definition toOrderItem (item : CartItem) : OrderItem :=
  mkOrderItem (ci_id item) (ci_quantity item) (ci_sale_price item)
    (ci_selectedOptions item).

(** The count of hundredths that [toFixed(2)] prints for a value: the
    nearest one, the larger of two that are equally near, with the sign
    taken off first. *)
Definition toFixed2 (x : Q) : Z :=
  if Qle_bool 0 x then Qfloor (x * 100 + (1 # 2))
  else (- Qfloor ((- x) * 100 + (1 # 2)))%Z.

(** [x.toFixed(2)] *)
Definition Number_toFixed2 (x : float) : Amount :=
  match exact x with
  | Some q =>
      if Qle_bool 1000000000000000000000 (Qabs q) then NumberText x
      else Decimal2 (negb (Qle_bool 0 q)) (Z.abs_N (toFixed2 q))
  | None => NumberText x
  end.

(** [key.split(":")] *)
Fixpoint split_colon (cur s : string) : list string :=
  match s with
  | EmptyString => [cur]
  | String c s' =>
      if Ascii.eqb c ":"%char then cur :: split_colon "" s'
      else split_colon (cur +:+ String c "") s'
  end.

(** [[...new Set(l)]]: the distinct elements, first occurrences kept. *)
Fixpoint uniq (seen l : list string) : list string :=
  match l with
  | [] => []
  | x :: l' =>
      if existsb (String.eqb x) seen then uniq seen l'
      else x :: uniq (x :: seen) l'
  end.

(** The projection both fingerprints are built from.  [ni_sale_price] is
    the value of the price in lowest terms, [None] where
    [JSON.stringify] prints [null], so that two items are equal exactly
    when their texts are. *)
Record NormItem := mkNormItem {
  ni_id : string;
  ni_quantity : Z;
  ni_sale_price : option Q;
  ni_shopId : string;
  ni_selectedOptions : list (string * string)
}.

#[export] Instance Q_eq_dec : EqDecision Q.
Proof. solve_decision. Defined.
#[export] Instance NormItem_eq_dec : EqDecision NormItem.
Proof. solve_decision. Defined.

Definition normItem (item : CartItem) : NormItem :=
  mkNormItem (ci_id item) (ci_quantity item)
    (Qred <$> exact (ci_sale_price item))
    (ci_shopId item) (default [] (ci_selectedOptions item)).

(** [JSON.parse(JSON.stringify(sessionData))]: what a reader of the store
    gets back from what was written. *)
Definition JSON_item (item : CartItem) : CartItem :=
  mkCartItem (ci_id item) (ci_title item) (ci_quantity item)
    (JSON_number (ci_sale_price item)) (ci_shopId item)
    (ci_selectedOptions item) (ci_discount_codes item).

Definition JSON_coupon (c : Coupon) : Coupon :=
  mkCoupon (cp_code c) (cp_discountedProductId c)
    (JSON_number (cp_discountPercent c)) (JSON_number (cp_discountAmount c)).

Definition JSON_session (s : Session) : Session :=
  mkSession (s_userId s) (JSON_item <$> s_cart s) (s_sellers s)
    (JSON_number (s_totalAmount s)) (s_shippingAddressId s)
    (JSON_coupon <$> s_coupon s).

(** [.sort((a, b) => a.id.localCompare(b.id))].  A string has no method
    [localCompare], so the comparator throws at its first call;
    [Array.prototype.sort] calls it as soon as the array holds two
    elements. *)
Definition sort_localCompare (l : list NormItem) : M (list NormItem) :=
  match l with
  | [] | [_] => mret l
  | _ => throw (TypeError "a.id.localCompare is not a function")
  end.

(** [JSON.stringify(cart.map(...).sort(...))]; two such texts are equal
    exactly when the sorted projections are. *)
Definition normalizeCart (cart : list CartItem) : M (list NormItem) :=
  sort_localCompare (normItem <$> cart).

(** ** The controller *)

Section Controller.

(** [process.env.STRIPE_WEBHOOK_SECRET] *)
Variable webhookSecret : string.

(** [stripe.webhooks.constructEvent(rawBody, signature, secret)]: the
    event, or the message of the error it throws when the signature does
    not verify. *)
Variable constructEvent : string → string → string → string + StripeEvent.

(** The id the database gives to the n-th order it stores. *)
Variable objectId : nat → string.

Definition orders_create (mk : string → Order) : M Order :=
  call (DbCreate "orders") ;;
  n ← gets (λ w, length (orders w)) ;
  modify (λ w, with_orders (orders w ++ [mk (objectId n)]) w) ;;
  mret (mk (objectId n)).

(** *** Create payment session *)

(** The [for (const key of keys)] loop; [Some r] is its early [return]. *)
Fixpoint scanSessions (userId : string) (normalizedCart : list NormItem)
    (keys : list string) : M (option Response) :=
  match keys with
  | [] => mret None
  | key :: keys' =>
      data ← redis_get key ;
      match data with
      | Some session =>
          if String.eqb (s_userId session) userId then
            existingCart ← normalizeCart (s_cart session) ;
            if bool_decide (existingCart = normalizedCart) then
              mret (Some (Json 200
                      (BSessionId (split_colon "" key !! 1%nat))))
            else
              redis_del key ;;
              scanSessions userId normalizedCart keys'
          else scanSessions userId normalizedCart keys'
      | None => scanSessions userId normalizedCart keys'
      end
  end.

(** [uuid] is the value [crypto.randomUUID()] returns in this call. *)
Definition createPaymentSession (uuid : string) (req : SessionRequest)
    : World → World * Response :=
  try_catch
    (match sr_cart req with
     | None | Some [] => mret (Next (ValidationError "Cart is empty or invalid"))
     | Some cart =>
         let userId := sr_userId req in
         normalizedCart ← normalizeCart cart ;
         keys ← redis_keys "payment-session:" ;
         found ← scanSessions userId normalizedCart keys ;
         match found with
         | Some r => mret r
         | None =>
             let uniqueShopIds := uniq [] (ci_shopId <$> cart) in
             shops ← shops_findMany uniqueShopIds ;
             let sellerData :=
               (λ s, mkSellerData s.1 (sh_sellerId s.2) (sh_stripeId s.2))
                 <$> shops in
             let totalAmount :=
               fold_left (λ total item,
                 (total + ofZ (ci_quantity item)
                            * ToNumber (ci_sale_price item))%float)
                 cart 0%float in
             let sessionId := uuid in
             let sessionData :=
               mkSession userId cart sellerData totalAmount
                 (or_null (sr_selectedAddressId req)) (sr_coupon req) in
             redis_setex ("payment-session: " +:+ sessionId) 600
               (JSON_session sessionData) ;;
             mret (Json 201 (BSessionId (Some sessionId)))
         end
     end)
    (λ error, mret (Next error)).

(** *** Create order (the Stripe webhook) *)

(** "update product & analytics" for one line of the order. *)
Definition updateProductAnalytics (userId shopId : string) (item : CartItem)
    : M unit :=
  let productId := ci_id item in
  let quantity := ci_quantity item in
  products_update productId quantity ;;
  productAnalytics_upsert productId shopId quantity ;;
  existingAnalytics ← userAnalytics_findUnique userId ;
  let newAction := mkAction productId shopId "purchase" in
  match existingAnalytics with
  | Some currentActions =>
      userAnalytics_update userId (currentActions ++ [newAction])
  | None => userAnalytics_create userId [newAction]
  end.

(** The [data] of [prisma.orders.create] for one shop's group; the
    database adds the id. *)
Definition orderData (userId : string) (session : Session)
    (g : string * list CartItem) (oid : string) : Order :=
  let coupon := s_coupon session in
  mkOrder oid userId g.1 (orderTotalOf coupon g.2) "Paid"
    (or_null (s_shippingAddressId session))
    (or_null (coupon ≫= cp_code))
    (match coupon with
     | Some c => or_zero (cp_discountAmount c)
     | None => 0%float
     end)
    (toOrderItem <$> g.2).

(** The body of [for (const shopId in shopGrouped)]. *)
Definition materializeGroup (sessionKey sessionId userId : string)
    (session : Session) (name email : option string)
    (grouped : list (string * list CartItem))
    (g : string * list CartItem) : M unit :=
  let shopId := g.1 in
  let orderItems := g.2 in
  let coupon := s_coupon session in
  order ← orders_create (orderData userId session g) ;
  forM_ orderItems (updateProductAnalytics userId shopId) ;;
  sendEmail (mkEmail email "Your TradeSphere Order Confirmation"
    "order-confirmation" name (s_cart session)
    (match coupon with
     | Some c =>
         if truthy (cp_discountAmount c)
         then (ToNumber (s_totalAmount session) - cp_discountAmount c)%float
         else s_totalAmount session
     | None => s_totalAmount session
     end)
    ("http://localhost:3002/order/" +:+ o_id order)) ;;
  let createdShopIds := fst <$> grouped in
  sellerShops ← shops_findMany createdShopIds ;
  forM_ sellerShops (λ shop,
    let firstProduct := head (group_items grouped shop.1) in
    let productTitle :=
      default "new item" (or_null (firstProduct ≫= ci_title)) in
    notifications_create (mkNotification "New Order Received"
      ("A customer just ordered " +:+ productTitle +:+ " from your shop.")
      userId (sh_sellerId shop.2)
      ("https://TradeSphere.com/order/" +:+ o_id order))) ;;
  notifications_create (mkNotification "Platform Order Alert"
    ("A new order was placed by " +:+ default "undefined" name)
    userId "admin" ("https://TradeSphere.com/order/" +:+ sessionId)) ;;
  redis_del sessionKey.

(** The orders a run of the loop stores for the groups [gs], the first of
    them as the [n]-th row of the table. *)
Fixpoint ordersFor (userId : string) (session : Session) (n : nat)
    (gs : list (string * list CartItem)) : list Order :=
  match gs with
  | [] => []
  | g :: gs' =>
      orderData userId session g (objectId n)
        :: ordersFor userId session (S n) gs'
  end.

(** The branch [event.type === "payment_intent.succeeded"]; [Some r] is
    its early [return]. *)
Definition paymentSucceeded (event : StripeEvent) : M (option Response) :=
  let sessionId := ev_sessionId event in
  let userId := ev_userId event in
  let sessionKey := "payment-session:" +:+ sessionId in
  sessionData ← redis_get sessionKey ;
  match sessionData with
  | None =>
      mret (Some (Send 200 "No session found, skipping order creation"))
  | Some session =>
      user ← users_findUnique userId ;
      let name := u_name <$> user in
      let email := u_email <$> user in
      grouped ← groupByShop (s_cart session) ;
      forM_ grouped
        (materializeGroup sessionKey sessionId userId session name email
           grouped) ;;
      mret None
  end.

Definition createOrder (req : WebhookRequest) : World → World * Response :=
  try_catch
    (match wr_stripe_signature req with
     | None | Some "" => mret (Send 400 "Missing Stripe signature")
     | Some stripeSignature =>
         call StripeConstructEvent ;;
         match constructEvent (wr_rawBody req) stripeSignature webhookSecret
         with
         | inl message => mret (Send 400 ("Webhook Error: " +:+ message))
         | inr event =>
             early ←
               (if String.eqb (ev_type event) "payment_intent.succeeded"
                then paymentSucceeded event
                else mret None) ;
             match early with
             | Some r => mret r
             | None =>
                 sendLog (mkLogEntry "success"
                   "Stripe webhook processed for session unknown"
                   "order-service") ;;
                 mret (Json 200 BReceived)
             end
         end
     end)
    (λ error,
       sendLog (mkLogEntry "error"
         ("Error in createOrder webhook: " +:+ error_message error)
         "order-service") ;;
       mret (Next error)).

(** *** Update order status *)

Definition allowedStatuses : list string :=
  ["Ordered"; "Packed"; "Shipped"; "Out for Delivery"; "Delivered"].

Definition updateDeliveryStatus (req : StatusRequest)
    : World → World * Response :=
  try_catch
    (let orderId := ur_orderId req in
     let deliveryStatus := ur_deliveryStatus req in
     if String.eqb orderId "" || String.eqb deliveryStatus "" then
       mret (Json 400 (BError "Missing order ID or delivery status."))
     else if negb (existsb (String.eqb deliveryStatus) allowedStatuses) then
       mret (Next (ValidationError "Invalid delivery status"))
     else
       existingOrder ← orders_findUnique orderId ;
       match existingOrder with
       | None => mret (Next (NotFoundError "Order not found!"))
       | Some _ =>
           updatedOrder ← orders_update orderId deliveryStatus ;
           mret (Json 200
             (BOrderUpdated "Delivery status updated successfully."
                updatedOrder))
       end)
    (λ error, mret (Next error)).

(** *** Verify coupon code *)

(** The amount before the clamp, from the row's type and value and the
    price of the matching line. *)
Definition rawDiscount (discount : Discount) (price : float) : float :=
  if String.eqb (d_discountType discount) "percentage"
  then (price * d_discountValue discount / 100)%float
  else if String.eqb (d_discountType discount) "flat"
  then d_discountValue discount
  else 0%float.

Definition verifyCouponCode (req : CouponRequest)
    : World → World * Response :=
  try_catch
    (let couponCode := wq_couponCode req in
     let cart := wq_cart req in
     if String.eqb couponCode "" || bool_decide (cart = []) then
       mret (Next (ValidationError "Coupon code and cart are required!"))
     else
       discount ← discount_codes_findUnique couponCode ;
       match discount with
       | None => mret (Next (ValidationError "Coupon code isn't valid!"))
       | Some discount =>
           let matchingProduct :=
             find (λ item,
               existsb (λ d, String.eqb d (d_id discount))
                 (ci_discount_codes item)) cart in
           match matchingProduct with
           | None =>
               mret (Json 200 (BCoupon false 0 (Number 0) None None
                 "No matching product found in the cart for this coupon!"))
           | Some matchingProduct =>
               let price :=
                 (ToNumber (ci_sale_price matchingProduct)
                    * ofZ (ci_quantity matchingProduct))%float in
               let discountAmount :=
                 Math_min (rawDiscount discount price) price in
               sendLog (mkLogEntry "success"
                 ("Coupon " +:+ couponCode +:+ " verified for user "
                    +:+ default "unknown" (or_null (wq_userId req)))
                 "order-service") ;;
               mret (Json 200 (BCoupon true (d_discountValue discount)
                 (Number_toFixed2 discountAmount)
                 (Some (ci_id matchingProduct))
                 (Some (d_discountType discount))
                 "Discount applied to 1 eligible product"))
           end
       end)
    (λ error,
       sendLog (mkLogEntry "error"
         ("Error in verifyCouponCode: " +:+ error_message error)
         "order-service") ;;
       mret (Next error)).

End Controller.

(** ** The handler that reads a session back *)

(** The reply of [verifyPaymentSession]: [{ success: true, session }]
    with its status, or one of the replies above. *)
Inductive SessionReply :=
| SessionFound (status : nat) (session : Session)
| SessionOther (r : Response).

(** [sessionId] is [req.query.sessionId], the empty string when the
    parameter is missing. *)
Definition verifyPaymentSession (sessionId : string)
    : World → World * SessionReply := λ w,
  match
    (if String.eqb sessionId "" then
       mret (SessionOther (Json 400 (BError "Session ID is required")))
     else
       let sessionKey := "payment-session:" +:+ sessionId in
       sessionData ← redis_get sessionKey ;
       match sessionData with
       | None =>
           mret (SessionOther
                   (Json 404 (BError "Session not found or expired.")))
       | Some session => mret (SessionFound 200 session)
       end) w
  with
  | (w1, inr r) => (w1, r)
  | (w1, inl error) => (w1, SessionOther (Next error))
  end.

(** The quantity of product [productId] that [items] order. *)
Fixpoint orderedQty (productId : string) (items : list CartItem) : Z :=
  match items with
  | [] => 0
  | item :: items' =>
      ((if String.eqb (ci_id item) productId then ci_quantity item else 0)
       + orderedQty productId items')%Z
  end.

(** ** The order of a shop, in the specification's words *)

(** "The sum of quantity × salePrice over that shop's items": the lines
    are added one after the other, from zero, as doubles are. *)
Fixpoint spec_sumFrom (acc : float) (lines : list CartItem) : float :=
  match lines with
  | [] => acc
  | line :: lines' =>
      spec_sumFrom
        (acc + ofZ (ci_quantity line) * ToNumber (ci_sale_price line))%float
        lines'
  end.

Definition spec_shopTotal (lines : list CartItem) : float :=
  spec_sumFrom 0%float lines.

(** "That shop's line items": the lines of the cart that name the shop,
    in cart order. *)
Definition spec_shopLines (shopId : string) (cart : list CartItem)
    : list CartItem :=
  filter (λ line, ci_shopId line = shopId) cart.

(** The coupon of a session bears on a group of lines when the product
    it names is one of them. *)
Definition spec_couponBears (coupon : option Coupon)
    (lines : list CartItem) : Prop :=
  ∃ c pid, coupon = Some c ∧ cp_discountedProductId c = Some pid ∧
    pid ≠ "" ∧ pid ∈ ci_id <$> lines.

(** ** The status sequence of the specification *)

(** The order of statuses the specification enumerates; the controller
    has its own list, [allowedStatuses]. *)
Definition spec_sequence : list string :=
  ["Paid"; "Packed"; "Shipped"; "Out for Delivery"; "Delivered"].

(** The place of a status in [spec_sequence]. *)
Definition spec_rank (status : string) : option nat :=
  fst <$> list_find (λ s, s = status) spec_sequence.

(** [spec_forward old new]: both are statuses of the sequence and [new]
    comes strictly later than [old]. *)
Definition spec_forward (old new : string) : Prop :=
  ∃ i j, spec_rank old = Some i ∧ spec_rank new = Some j ∧ (i < j)%nat.

(** ** Scenarios *)

(** Concrete worlds and requests on which the handlers are run below. *)
Module Scenario.

Definition secret : string := "whsec_test".

(** A stand-in for Stripe's check: the signature "valid" verifies and
    yields [event]; any other is refused. *)
Definition verify (event : StripeEvent)
    : string → string → string → string + StripeEvent :=
  λ rawBody signature secret,
    if String.eqb signature "valid" then inr event
    else inl "No signatures found matching the expected signature".

Definition objectId (n : nat) : string := "order-" +:+ pretty n.

Definition paid (sessionId userId : string) : StripeEvent :=
  mkStripeEvent "payment_intent.succeeded" sessionId userId.

Definition signed : WebhookRequest := mkWebhookRequest (Some "valid") "{}".
Definition forged : WebhookRequest := mkWebhookRequest (Some "forged") "{}".

(** Two units at 10 in shop A, one unit at 25 in shop B, one unit at 30
    in shop A, one unit at 1.25 in shop A. *)
Definition pen : CartItem :=
  mkCartItem "p1" (Some "Pen") 2 10 "A" None ["d10"].
Definition book : CartItem :=
  mkCartItem "p2" (Some "Book") 1 25 "B" None [].
Definition lamp : CartItem :=
  mkCartItem "p3" (Some "Lamp") 1 30 "A" None ["d50"].
Definition card : CartItem :=
  mkCartItem "p4" (Some "Card") 1 1.25 "A" None ["d10"].

Definition base : World :=
  mkWorld ∅
    {[ "u1" := mkUser "Ann" "ann@example.com" ]}
    {[ "A" := mkShop "sA" "Shop A" None; "B" := mkShop "sB" "Shop B" None ]}
    {[ "p1" := mkProduct 10 0; "p2" := mkProduct 5 0;
       "p3" := mkProduct 3 0; "p4" := mkProduct 8 0;
       "p5" := mkProduct 40 0; "p6" := mkProduct 9 0;
       "p7" := mkProduct 9 0; "p8" := mkProduct 2 0 ]}
    {[ "SAVE10" := mkDiscount "d10" "percentage" 10;
       "FLAT50" := mkDiscount "d50" "flat" 50 ]}
    ∅ ∅ [] [] [] [] [].

(** The world in which [session] waits under [sessionId]. *)
Definition pending (sessionId : string) (session : Session) : World :=
  with_redis {[ "payment-session:" +:+ sessionId := session ]} base.

Definition twoShops : Session := mkSession "u1" [pen; book] [] 45 None None.

(** A cached coupon of ten percent on the pen, and one of a flat 50 on
    the lamp, which costs 30. *)
Definition tenPercent : Coupon := mkCoupon (Some "SAVE10") (Some "p1") 10 2.
Definition flatFifty : Coupon := mkCoupon (Some "FLAT50") (Some "p3") 0 50.
Definition withTenPercent : Session :=
  mkSession "u1" [pen] [] 20 None (Some tenPercent).
Definition withFlatFifty : Session :=
  mkSession "u1" [lamp] [] 30 None (Some flatFifty).

(** Three sweets at 0.07, the double nearest to seven hundredths, and a
    cached coupon of a hundred percent on them. *)
Definition sweet : CartItem :=
  mkCartItem "p5" (Some "Sweet") 3 0x1.1eb851eb851ecp-4 "A" None [].
Definition allOff : Coupon := mkCoupon (Some "ALLOFF") (Some "p5") 100 0.
Definition withAllOff : Session :=
  mkSession "u1" [sweet] [] 0x1.ae147ae147ae2p-3 None (Some allOff).

(** A gum at 0.1 and a mint at 0.2, as the doubles nearest to them, and
    an atlas at 10.05, which carries the ten-percent code. *)
Definition gum : CartItem :=
  mkCartItem "p6" (Some "Gum") 1 0x1.999999999999ap-4 "A" None [].
Definition mint : CartItem :=
  mkCartItem "p7" (Some "Mint") 1 0x1.999999999999ap-3 "A" None [].
Definition smallChange : Session :=
  mkSession "u1" [gum; mint] [] 0x1.3333333333334p-2 None None.
Definition atlas : CartItem :=
  mkCartItem "p8" (Some "Atlas") 1 0x1.419999999999ap+3 "A" None ["d10"].

Definition delivered : World :=
  with_orders
    [mkOrder "order-0" "u1" "A" 20 "Delivered" None None 0
       [toOrderItem pen]] base.
Definition justPaid : World :=
  with_orders
    [mkOrder "order-0" "u1" "A" 20 "Paid" None None 0
       [toOrderItem pen]] base.

End Scenario.

(** Further worlds and requests, for the properties of the session and
    of the stock. *)
Module Further.

(** A line whose product has no row in the catalog of [Scenario.base]. *)
Definition ghost : CartItem :=
  mkCartItem "p9" (Some "Ghost") 1 5 "A" None [].
Definition withGhost : Session :=
  mkSession "u1" [ghost; Scenario.pen] [] 25 None None.

Definition penRequest : SessionRequest :=
  mkSessionRequest "u1" (Some [Scenario.pen]) None None.

(** What the first call with [penRequest] and the id "7f3a" stores. *)
Definition penSession : Session :=
  mkSession "u1" [Scenario.pen] [mkSellerData "A" "sA" None] 20 None None.
Definition stored : World :=
  with_redis {[ "payment-session: 7f3a" := penSession ]} Scenario.base.

(** Another owner has a session waiting. *)
Definition bobSession : Session :=
  mkSession "u2" [Scenario.book] [] 25 None None.
Definition withBob : World :=
  with_redis {[ "payment-session: b0b" := bobSession ]} Scenario.base.

(** The pen and the book, sold by shops whose ids are the array indices
    "10" and "9". *)
Definition penOfTen : CartItem :=
  mkCartItem "p1" (Some "Pen") 2 10 "10" None [].
Definition bookOfNine : CartItem :=
  mkCartItem "p2" (Some "Book") 1 25 "9" None [].
Definition numberedShops : Session :=
  mkSession "u1" [penOfTen; bookOfNine] [] 45 None None.

(** The ghost line in shop "10" and the pens in shop "9". *)
Definition ghostOfTen : CartItem :=
  mkCartItem "p9" (Some "Ghost") 1 5 "10" None [].
Definition pensOfNine : CartItem :=
  mkCartItem "p1" (Some "Pen") 2 10 "9" None [].
Definition ghostFirst : Session :=
  mkSession "u1" [ghostOfTen; pensOfNine] [] 25 None None.

(** The pen, sold by a shop whose id is a name that every plain object
    inherits. *)
Definition penOfConstructor : CartItem :=
  mkCartItem "p1" (Some "Pen") 2 10 "constructor" None [].
Definition inheritedShop : Session :=
  mkSession "u1" [penOfConstructor] [] 20 None None.

(** The buyer has one action on record. *)
Definition viewed : Action := mkAction "p0" "A" "view".
Definition logged : World :=
  with_userAnalytics {[ "u1" := [viewed] ]}
    (Scenario.pending "S" Scenario.twoShops).

End Further.

(** ** Reasoning about handler bodies *)

(** A computation respects a relation when every run, failed or not,
    relates the world it starts in to the world it ends in. *)
Definition respects {A} (R : relation World) (c : M A) : Prop :=
  ∀ w w' r, c w = (w', r) → R w w'.

(** [keeps proj]: the projection of the world is left as it was. *)
Definition keeps {B} (proj : World → B) : relation World :=
  λ w w', proj w' = proj w.

(** [succeeds I c]: from a world in [I], [c] returns normally and ends in
    [I]. *)
Definition succeeds {A} (I : World → Prop) (c : M A) : Prop :=
  ∀ w, I w → ∃ w' a, c w = (w', inr a) ∧ I w'.

(** [ensures Q c]: every normal return of [c] ends in [Q]. *)
Definition ensures {A} (Q : World → Prop) (c : M A) : Prop :=
  ∀ w w' a, c w = (w', inr a) → Q w'.

(** Every session the store has gained has a cart with a line in it. *)
Definition gains_carts : relation World :=
  λ w w', ∀ k s, redis w' !! k = Some s →
    redis w !! k = Some s ∨ s_cart s ≠ [].

(** Once the key is absent it stays absent. *)
Definition stays_absent (key : string) : relation World :=
  λ w w', redis w !! key = None → redis w' !! key = None.

(** The sessions of owners other than [userId] are as they were, the key
    [newKey] apart. *)
Definition keeps_others (userId newKey : string) : relation World :=
  λ w w', ∀ k s, redis w !! k = Some s → s_userId s ≠ userId →
    k ≠ newKey → redis w' !! k = Some s.

(** No product row appears or disappears, and what leaves the stock of a
    product is added to its sales. *)
Definition stock_conserved : relation World :=
  λ w w', ∀ i,
    (λ p, (p_stock p + p_totalSales p)%Z) <$> products w' !! i
    = (λ p, (p_stock p + p_totalSales p)%Z) <$> products w !! i.

(** The action log of every user is extended, never rewritten. *)
Definition log_grows : relation World :=
  λ w w', ∀ u old, userAnalytics w !! u = Some old →
    ∃ more, userAnalytics w' !! u = Some (old ++ more).

(** Every product of [ids] has a row in the catalog. *)
Definition in_catalog (ids : list string) (w : World) : Prop :=
  Forall (λ i, is_Some (products w !! i)) ids.

Lemma bind_inv {A B} (c : M A) (f : A → M B) w w' r :
  (c ≫= f) w = (w', r) →
  ∃ w1 r1, c w = (w1, r1) ∧
    match r1 with
    | inl e => w' = w1 ∧ r = inl e
    | inr a => f a w1 = (w', r)
    end.
Proof.
  unfold mbind, M_bind. destruct (c w) as [w1 [e|a]]; intros H;
    exists w1; eexists; (split; [reflexivity|]); [|exact H].
  by inversion H.
Qed.

Lemma bind_inv_ok {A B} (c : M A) (f : A → M B) w w' b :
  (c ≫= f) w = (w', inr b) →
  ∃ w1 a, c w = (w1, inr a) ∧ f a w1 = (w', inr b).
Proof.
  intros H. apply bind_inv in H as (w1 & [e|a] & Hc & H).
  - by destruct H.
  - eauto.
Qed.

Lemma respects_run {A} R (c : M A) w w' r :
  c w = (w', r) → respects R c → R w w'.
Proof. intros H Hc. by eapply Hc. Qed.

Section Respects.
Context (R : relation World) `{!PreOrder R}.

Lemma respects_ret {A} (a : A) : respects R (mret a).
Proof. unfold respects, mret, M_ret. intros w w' r [= <- _]. reflexivity. Qed.

Lemma respects_throw {A} e : respects R (@throw A e).
Proof. unfold respects, throw. intros w w' r [= <- _]. reflexivity. Qed.

Lemma respects_gets {A} (f : World → A) : respects R (gets f).
Proof. unfold respects, gets. intros w w' r [= <- _]. reflexivity. Qed.

Lemma respects_modify f : (∀ w, R w (f w)) → respects R (modify f).
Proof. unfold respects, modify. intros Hf w w' r [= <- _]. apply Hf. Qed.

Lemma respects_bind {A B} (c : M A) (f : A → M B) :
  respects R c → (∀ a, respects R (f a)) → respects R (c ≫= f).
Proof.
  intros Hc Hf w w' r H.
  apply bind_inv in H as (w1 & [e|a] & Hcw & H).
  - destruct H as [-> _]. by eapply Hc.
  - transitivity w1; [by eapply Hc | by eapply Hf].
Qed.

Lemma respects_forM_ {A} (l : list A) (f : A → M unit) :
  (∀ a, respects R (f a)) → respects R (forM_ l f).
Proof.
  intros Hf. induction l as [|x l IH]; simpl.
  - apply respects_ret.
  - apply respects_bind; [apply Hf | intros _; apply IH].
Qed.
End Respects.

#[export] Instance keeps_preorder {B} (proj : World → B) :
  PreOrder (keeps proj).
Proof.
  split; [by intros w | intros w1 w2 w3 H1 H2]. unfold keeps in *. congruence.
Qed.

#[export] Instance stays_absent_preorder key : PreOrder (stays_absent key).
Proof.
  split; [intros w H; exact H | intros w1 w2 w3 H1 H2 H; apply H2, H1, H].
Qed.

(** Steps through a handler body: one collaborator call or one control
    construct at a time. *)
Ltac respects_prims :=
  unfold redis_keys, redis_get, redis_setex, redis_del,
    users_findUnique, shops_findMany, discount_codes_findUnique,
    products_update, productAnalytics_upsert, userAnalytics_findUnique,
    userAnalytics_update, userAnalytics_create, notifications_create,
    sendEmail, sendLog, orders_findUnique, orders_create,
    updateProductAnalytics;
  unfold call.

Ltac respects_step lem :=
  first
    [ apply lem
    | apply respects_ret; tc_solve
    | apply respects_throw; tc_solve
    | apply respects_gets; tc_solve
    | apply respects_bind; try tc_solve; [ | intros ?]
    | apply respects_forM_; try tc_solve; intros ?
    | apply respects_modify; try tc_solve; intros ?;
      first [exact eq_refl | intros ?; assumption]
    | match goal with
      | |- respects _ (match ?x with _ => _ end) => destruct x
      end
    | progress respects_prims ].

Ltac respects_tac := repeat respects_step I.
Ltac respects_using lem := repeat respects_step lem.

Lemma ensures_bind {A B} Q (c : M A) (f : A → M B) :
  (∀ a, ensures Q (f a)) → ensures Q (c ≫= f).
Proof.
  intros Hf w w' b H. apply bind_inv_ok in H as (w1 & a & _ & H).
  by eapply Hf.
Qed.

Lemma redis_del_stays_absent key k :
  respects (stays_absent key) (redis_del k).
Proof.
  intros w w' r [= <- _] H. simpl.
  rewrite lookup_delete. by case_decide.
Qed.

Section Succeeds.
Context (I : World → Prop).

Lemma succeeds_ret {A} (a : A) : succeeds I (mret a).
Proof. intros w Hw. by exists w, a. Qed.

Lemma succeeds_gets {A} (f : World → A) : succeeds I (gets f).
Proof. intros w Hw. by exists w, (f w). Qed.

Lemma succeeds_modify f : (∀ w, I w → I (f w)) → succeeds I (modify f).
Proof. intros Hf w Hw. exists (f w), tt. split; [done | by apply Hf]. Qed.

Lemma succeeds_bind {A B} (c : M A) (f : A → M B) :
  succeeds I c → (∀ a, succeeds I (f a)) → succeeds I (c ≫= f).
Proof.
  intros Hc Hf w Hw. destruct (Hc w Hw) as (w1 & a & Hcw & Hw1).
  destruct (Hf a w1 Hw1) as (w2 & b & Hfw & Hw2).
  exists w2, b. split; [|done]. unfold mbind, M_bind. by rewrite Hcw.
Qed.

Lemma succeeds_forM_ {A} (l : list A) (f : A → M unit) :
  (∀ a, a ∈ l → succeeds I (f a)) → succeeds I (forM_ l f).
Proof.
  induction l as [|x l IH]; simpl; intros Hf.
  - apply succeeds_ret.
  - apply succeeds_bind; [apply Hf, list_elem_of_here|].
    intros _. apply IH. intros a Ha. by apply Hf, list_elem_of_further.
Qed.
End Succeeds.

Lemma products_update_succeeds ids productId qty :
  productId ∈ ids → succeeds (in_catalog ids) (products_update productId qty).
Proof.
  intros Hin w Hw. unfold in_catalog in *. rewrite Forall_forall in Hw.
  destruct (Hw _ Hin) as [p Hp].
  eexists _, tt. split.
  - unfold products_update, call, gets, modify, mbind, M_bind. simpl.
    rewrite Hp. reflexivity.
  - apply Forall_forall. intros i Hi. simpl.
    rewrite lookup_insert. case_decide; [by eexists|]. by apply Hw.
Qed.

Ltac succeeds_step lem :=
  first
    [ apply lem
    | apply succeeds_ret
    | apply succeeds_gets
    | apply succeeds_bind; [ | intros ?]
    | apply succeeds_modify; intros ? ?; assumption
    | match goal with
      | |- succeeds _ (match ?x with _ => _ end) => destruct x
      end
    | progress (unfold redis_get, redis_del, users_findUnique,
        shops_findMany, productAnalytics_upsert, userAnalytics_findUnique,
        userAnalytics_update, userAnalytics_create, notifications_create,
        sendEmail, sendLog, orders_create; unfold call) ].

(** ** Grouping a cart by shop *)

Lemma group_push_nonempty acc item : group_push acc item ≠ [].
Proof. destruct acc as [|[k v] acc]; simpl; [done|]. by case String.eqb. Qed.

Lemma fold_group_push_nonempty l acc :
  acc ≠ [] → fold_left group_push l acc ≠ [].
Proof.
  revert acc. induction l as [|x l IH]; intros acc H; simpl; [done|].
  apply IH, group_push_nonempty.
Qed.

Lemma shopEntries_nonempty cart : cart ≠ [] → shopEntries cart ≠ [].
Proof.
  destruct cart as [|x l]; [done|]. intros _. unfold shopEntries. simpl.
  apply fold_group_push_nonempty. done.
Qed.

Lemma group_push_keys acc item k :
  k ∈ (group_push acc item).*1 ↔ k ∈ acc.*1 ∨ k = ci_shopId item.
Proof.
  induction acc as [|[k0 v0] acc IH]; simpl.
  - rewrite list_elem_of_singleton, elem_of_nil. tauto.
  - destruct (String.eqb_spec k0 (ci_shopId item)) as [->|Hne]; simpl.
    + rewrite !elem_of_cons. tauto.
    + rewrite !elem_of_cons, IH. tauto.
Qed.

Lemma group_push_NoDup acc item :
  NoDup acc.*1 → NoDup (group_push acc item).*1.
Proof.
  induction acc as [|[k0 v0] acc IH]; simpl; intros H.
  - apply NoDup_singleton.
  - apply NoDup_cons in H as [Hk0 H].
    destruct (String.eqb_spec k0 (ci_shopId item)) as [->|Hne]; simpl.
    + by apply NoDup_cons.
    + apply NoDup_cons. split; [|by apply IH].
      rewrite group_push_keys. intros [?|?]; [done | congruence].
Qed.

Lemma group_items_push acc item k :
  group_items (group_push acc item) k =
    if decide (k = ci_shopId item) then group_items acc k ++ [item]
    else group_items acc k.
Proof.
  unfold group_items. induction acc as [|[k0 v0] acc IH]; simpl.
  - destruct (String.eqb_spec (ci_shopId item) k); case_decide;
      simpl; congruence.
  - destruct (String.eqb_spec k0 (ci_shopId item)) as [->|Hne]; simpl.
    + destruct (String.eqb_spec (ci_shopId item) k); case_decide;
        simpl; congruence.
    + destruct (String.eqb_spec k0 k) as [->|Hk]; [|exact IH].
      by rewrite decide_False.
Qed.

Lemma fold_group_push_keys l acc k :
  k ∈ (fold_left group_push l acc).*1 ↔ k ∈ acc.*1 ∨ k ∈ ci_shopId <$> l.
Proof.
  revert acc. induction l as [|x l IH]; intros acc; simpl.
  - rewrite elem_of_nil. tauto.
  - rewrite IH, group_push_keys, elem_of_cons. tauto.
Qed.

Lemma fold_group_push_NoDup l acc :
  NoDup acc.*1 → NoDup (fold_left group_push l acc).*1.
Proof.
  revert acc. induction l as [|x l IH]; intros acc H; simpl; [done|].
  by apply IH, group_push_NoDup.
Qed.

Lemma fold_group_push_items l acc k :
  group_items (fold_left group_push l acc) k =
    group_items acc k ++ filter (λ i, ci_shopId i = k) l.
Proof.
  revert acc. induction l as [|x l IH]; intros acc; simpl.
  - by rewrite app_nil_r.
  - rewrite IH, group_items_push. case_decide as Hk.
    + subst k. rewrite filter_cons_True by done. by rewrite <- app_assoc.
    + rewrite filter_cons_False; [done|]. congruence.
Qed.

Lemma group_items_elem acc k v :
  NoDup acc.*1 → (k, v) ∈ acc → group_items acc k = v.
Proof.
  unfold group_items. induction acc as [|[k0 v0] acc IH]; simpl; intros Hnd H.
  - by apply elem_of_nil in H.
  - apply NoDup_cons in Hnd as [Hk0 Hnd].
    destruct (String.eqb_spec k0 k) as [->|Hne]; simpl.
    + apply elem_of_cons in H as [[= ->]|H]; [done|].
      destruct Hk0. apply list_elem_of_fmap. by exists (k, v).
    + apply elem_of_cons in H as [[= -> ->]|H]; [done|]. by apply IH.
Qed.

(** The object has one property per shop of the cart, and the property
    of a shop holds the lines of that shop, in cart order. *)
Lemma shopEntries_NoDup cart : NoDup (shopEntries cart).*1.
Proof. apply fold_group_push_NoDup, NoDup_nil_2. Qed.

Lemma shopEntries_keys cart k :
  k ∈ (shopEntries cart).*1 ↔ k ∈ ci_shopId <$> cart.
Proof.
  unfold shopEntries. rewrite fold_group_push_keys. simpl.
  rewrite elem_of_nil. tauto.
Qed.

Lemma shopEntries_entry cart k v :
  (k, v) ∈ shopEntries cart →
  v = filter (λ i, ci_shopId i = k) cart ∧ v ≠ [].
Proof.
  intros H.
  assert (Hv : v = filter (λ i, ci_shopId i = k) cart).
  { rewrite <- (group_items_elem _ _ _ (shopEntries_NoDup cart) H).
    unfold shopEntries. by rewrite fold_group_push_items. }
  split; [done|]. subst v.
  assert (Hk : k ∈ ci_shopId <$> cart).
  { apply shopEntries_keys, list_elem_of_fmap.
    by exists (k, filter (λ i, ci_shopId i = k) cart). }
  apply list_elem_of_fmap in Hk as (i & -> & Hi).
  intros Hnil. assert (Hin : i ∈ filter (λ j, ci_shopId j = ci_shopId i) cart)
    by (by apply list_elem_of_filter).
  rewrite Hnil in Hin. by apply elem_of_nil in Hin.
Qed.

(** The order of [for ... in] rearranges the properties and loses
    none. *)
Lemma insert_index_Permutation {A} i (x : A) l :
  insert_index i x l ≡ₚ (i, x) :: l.
Proof.
  induction l as [|[j y] l IH]; simpl; [done|].
  destruct (i <=? j)%N; [done|]. rewrite IH. apply perm_swap.
Qed.

Lemma ownKeysOrder_Permutation {A} (l : list (string * A)) :
  ownKeysOrder l ≡ₚ l.
Proof.
  unfold ownKeysOrder.
  rewrite <- (filter_app_complement (λ e, arrayIndex e.1 = None) l) at 3.
  rewrite (Permutation_app_comm (filter _ l)).
  apply Permutation_app; [|done].
  induction l as [|e l IH]; [done|]. cbn [indexedEntries foldr].
  fold (indexedEntries l).
  destruct (arrayIndex e.1) as [i|] eqn:He.
  - rewrite filter_cons_True by (by rewrite He).
    by rewrite insert_index_Permutation, fmap_cons, IH.
  - rewrite filter_cons_False by (rewrite He; tauto). exact IH.
Qed.

(** Where no key is an array index the order is that of creation. *)
Lemma ownKeysOrder_no_index {A} (l : list (string * A)) :
  Forall (λ e, arrayIndex e.1 = None) l → ownKeysOrder l = l.
Proof.
  intros Hl. unfold ownKeysOrder.
  assert (Hs : indexedEntries l = []).
  { induction Hl as [|e l He Hl IH]; [done|].
    cbn [indexedEntries foldr]. fold (indexedEntries l). by rewrite He. }
  rewrite Hs. simpl.
  induction Hl as [|e l He Hl IH]; [done|].
  rewrite filter_cons_True by done. f_equal. apply IH.
  cbn [indexedEntries foldr] in Hs. fold (indexedEntries l) in Hs.
  by rewrite He in Hs.
Qed.

Lemma shopGrouped_Permutation cart : shopGrouped cart ≡ₚ shopEntries cart.
Proof. apply ownKeysOrder_Permutation. Qed.

Lemma shopGrouped_nonempty cart : cart ≠ [] → shopGrouped cart ≠ [].
Proof.
  intros H Hnil. apply (shopEntries_nonempty cart H).
  apply Permutation_nil_r. by rewrite <- Hnil, shopGrouped_Permutation.
Qed.

(** [shopGrouped] has one entry per shop of the cart, and the entry of a
    shop holds the lines of that shop, in cart order. *)
Lemma shopGrouped_NoDup cart : NoDup (shopGrouped cart).*1.
Proof. rewrite shopGrouped_Permutation. apply shopEntries_NoDup. Qed.

Lemma shopGrouped_keys cart k :
  k ∈ (shopGrouped cart).*1 ↔ k ∈ ci_shopId <$> cart.
Proof. rewrite shopGrouped_Permutation. apply shopEntries_keys. Qed.

Lemma shopGrouped_entry cart k v :
  (k, v) ∈ shopGrouped cart →
  v = filter (λ i, ci_shopId i = k) cart ∧ v ≠ [].
Proof. rewrite shopGrouped_Permutation. apply shopEntries_entry. Qed.

Lemma shopGrouped_length cart :
  length (shopGrouped cart)
    = size (list_to_set (ci_shopId <$> cart) : gset string).
Proof.
  rewrite <- (length_fmap fst).
  rewrite <- (size_list_to_set (C := gset string))
    by apply shopGrouped_NoDup.
  f_equal. apply set_eq. intros k.
  by rewrite !elem_of_list_to_set, shopGrouped_keys.
Qed.

(** The [reduce] fails exactly on a shop id that names an inherited
    member. *)
Lemma groupByShop_ok cart :
  Forall (λ i, ci_shopId i ∉ objectPrototypeKeys) cart →
  groupByShop cart = mret (shopGrouped cart).
Proof.
  intros H. unfold groupByShop.
  replace (existsb _ cart) with false; [done|].
  symmetry. apply not_true_iff_false. rewrite existsb_exists.
  intros (item & Hin & Hex). apply existsb_exists in Hex as (k & Hk & Heq).
  apply String.eqb_eq in Heq. subst k.
  rewrite Forall_forall in H. apply (H item); by apply list_elem_of_In.
Qed.

Lemma groupByShop_inv cart w w' grouped :
  groupByShop cart w = (w', inr grouped) →
  w' = w ∧ grouped = shopGrouped cart ∧
  Forall (λ i, ci_shopId i ∉ objectPrototypeKeys) cart.
Proof.
  unfold groupByShop. destruct (existsb _ cart) eqn:Hex; [done|].
  intros [= <- <-]. split; [done|]. split; [done|].
  apply Forall_forall. intros item Hin Hk.
  apply not_true_iff_false in Hex. apply Hex, existsb_exists.
  exists item. split; [by apply list_elem_of_In|].
  apply existsb_exists. exists (ci_shopId item).
  split; [by apply list_elem_of_In | apply String.eqb_refl].
Qed.

(** ** The discount applied at materialization *)

(** The guard of the discount, in terms of the coupon and the lines. *)
Lemma discountedItem_None coupon orderItems :
  ¬ spec_couponBears coupon orderItems →
  discountedItem coupon orderItems = None.
Proof.
  intros Hno. unfold discountedItem.
  destruct coupon as [c|]; [|done].
  destruct (cp_discountedProductId c) as [pid|] eqn:Hpid; [|done].
  destruct (String.eqb_spec pid "") as [->|Hne]; simpl; [done|].
  destruct (existsb _ _) eqn:Hex; [|done].
  destruct Hno. exists c, pid. repeat split; try done.
  apply existsb_exists in Hex as (item & Hin & Heq).
  apply String.eqb_eq in Heq. subst pid.
  apply list_elem_of_fmap. exists item. by rewrite list_elem_of_In.
Qed.

Lemma discountedItem_found c pid item orderItems :
  cp_discountedProductId c = Some pid → pid ≠ "" →
  find (λ line, String.eqb (ci_id line) pid) orderItems = Some item →
  discountedItem (Some c) orderItems = Some (c, item).
Proof.
  intros Hpid Hne Hfind. unfold discountedItem. rewrite Hpid.
  apply String.eqb_neq in Hne. rewrite Hne. simpl.
  replace (existsb _ orderItems) with true; [by rewrite Hfind|].
  symmetry. apply existsb_exists. exists item.
  by apply find_some in Hfind.
Qed.

(** The code's sum of a group is the specification's. *)
Lemma lineTotal_spec lines : lineTotal lines = spec_shopTotal lines.
Proof.
  unfold lineTotal, spec_shopTotal. generalize 0%float.
  induction lines as [|line lines IH]; intros acc; simpl; [done|].
  apply IH.
Qed.

(** ** The webhook: what one shop's iteration does *)

Section CreateOrder.

Variable webhookSecret : string.
Variable constructEvent : string → string → string → string + StripeEvent.
Variable objectId : nat → string.

Lemma orders_create_run mk w :
  orders_create objectId mk w =
    (with_orders (orders w ++ [mk (objectId (length (orders w)))])
       (with_calls (calls w ++ [DbCreate "orders"]) w),
     inr (mk (objectId (length (orders w))))).
Proof. reflexivity. Qed.

Lemma materializeGroup_orders sessionKey sessionId userId session name email
    grouped g w w' r :
  materializeGroup objectId sessionKey sessionId userId session name email
    grouped g w = (w', r) →
  orders w' = orders w ++
    [orderData userId session g (objectId (length (orders w)))].
Proof.
  unfold materializeGroup. intros H.
  apply bind_inv in H as (w1 & r1 & Hc & H).
  rewrite orders_create_run in Hc. injection Hc as <- <-.
  apply (respects_run (keeps orders)) in H; [exact H|].
  respects_tac.
Qed.

Lemma materializeGroup_deletes sessionKey sessionId userId session name email
    grouped g :
  ensures (λ w, redis w !! sessionKey = None)
    (materializeGroup objectId sessionKey sessionId userId session name email
       grouped g).
Proof.
  unfold materializeGroup.
  repeat (apply ensures_bind; intros ?).
  unfold modify. intros w w' ? [= <- _]. apply lookup_delete_eq.
Qed.

Lemma materializeGroup_stays_absent sessionKey sessionId userId session name
    email grouped g :
  respects (stays_absent sessionKey)
    (materializeGroup objectId sessionKey sessionId userId session name email
       grouped g).
Proof.
  unfold materializeGroup.
  respects_using (redis_del_stays_absent sessionKey sessionKey).
Qed.

(** The loop over the groups, when it runs to its end. *)
Lemma groups_orders sessionKey sessionId userId session name email grouped
    gs w w' :
  forM_ gs (materializeGroup objectId sessionKey sessionId userId session
              name email grouped) w = (w', inr tt) →
  orders w' = orders w ++ ordersFor objectId userId session (length (orders w)) gs.
Proof.
  revert w. induction gs as [|g gs IH]; intros w H; simpl in *.
  - injection H as <-. by rewrite app_nil_r.
  - apply bind_inv_ok in H as (w1 & [] & Hg & H).
    apply materializeGroup_orders in Hg. apply IH in H.
    rewrite H, Hg, length_app. simpl.
    rewrite <- app_assoc. simpl. do 3 f_equal. lia.
Qed.

Lemma groups_delete sessionKey sessionId userId session name email grouped
    gs w w' :
  gs ≠ [] →
  forM_ gs (materializeGroup objectId sessionKey sessionId userId session
              name email grouped) w = (w', inr tt) →
  redis w' !! sessionKey = None.
Proof.
  destruct gs as [|g gs]; [done|]. intros _ H. simpl in H.
  apply bind_inv_ok in H as (w1 & [] & Hg & H).
  apply materializeGroup_deletes in Hg.
  apply (respects_run (stays_absent sessionKey)) in H; [by apply H|].
  apply respects_forM_; [tc_solve|]. intros a.
  apply materializeGroup_stays_absent.
Qed.

(** Each iteration mails the buyer once. *)
Lemma materializeGroup_emails sessionKey sessionId userId session name email
    grouped g w w' :
  materializeGroup objectId sessionKey sessionId userId session name email
    grouped g w = (w', inr tt) →
  length (emails w') = S (length (emails w)).
Proof.
  unfold materializeGroup. intros H.
  apply bind_inv_ok in H as (w1 & order & Hc & H).
  apply (respects_run (keeps emails)) in Hc; [|respects_tac].
  apply bind_inv_ok in H as (w2 & [] & Hf & H).
  apply (respects_run (keeps emails)) in Hf; [|respects_tac].
  apply bind_inv_ok in H as (w3 & [] & He & H).
  apply (respects_run (keeps emails)) in H; [|respects_tac].
  injection He as <-. unfold keeps in *. simpl in H.
  rewrite H, Hf, Hc, length_app. simpl. lia.
Qed.

Lemma groups_emails sessionKey sessionId userId session name email grouped
    gs w w' :
  forM_ gs (materializeGroup objectId sessionKey sessionId userId session
              name email grouped) w = (w', inr tt) →
  length (emails w') = (length (emails w) + length gs)%nat.
Proof.
  revert w. induction gs as [|g gs IH]; intros w H; simpl in *.
  - injection H as <-. lia.
  - apply bind_inv_ok in H as (w1 & [] & Hg & H).
    apply materializeGroup_emails in Hg. apply IH in H. lia.
Qed.

(** *** The whole handler *)

(** The handler once the signature has been verified. *)
Lemma createOrder_verified req sig event w :
  wr_stripe_signature req = Some sig → sig ≠ "" →
  constructEvent (wr_rawBody req) sig webhookSecret = inr event →
  createOrder webhookSecret constructEvent objectId req w =
  try_catch
    (call StripeConstructEvent ;;
     early ←
       (if String.eqb (ev_type event) "payment_intent.succeeded"
        then paymentSucceeded objectId event
        else mret None) ;
     match early with
     | Some r => mret r
     | None =>
         sendLog (mkLogEntry "success"
           "Stripe webhook processed for session unknown" "order-service") ;;
         mret (Json 200 BReceived)
     end)
    (λ error,
       sendLog (mkLogEntry "error"
         ("Error in createOrder webhook: " +:+ error_message error)
         "order-service") ;;
       mret (Next error)) w.
Proof.
  intros Hsig Hne Hce. unfold createOrder. rewrite Hsig.
  destruct sig as [|a sig]; [done|]. by rewrite Hce.
Qed.

(** A run that materializes a stored session and acknowledges it: the
    loop over the groups ran to its end. *)
Lemma createOrder_materialized req sig event session w w1 :
  wr_stripe_signature req = Some sig → sig ≠ "" →
  constructEvent (wr_rawBody req) sig webhookSecret = inr event →
  ev_type event = "payment_intent.succeeded" →
  redis w !! ("payment-session:" +:+ ev_sessionId event) = Some session →
  createOrder webhookSecret constructEvent objectId req w
    = (w1, Json 200 BReceived) →
  ∃ wb,
    forM_ (shopGrouped (s_cart session))
      (materializeGroup objectId
         ("payment-session:" +:+ ev_sessionId event) (ev_sessionId event)
         (ev_userId event) session
         (u_name <$> users w !! ev_userId event)
         (u_email <$> users w !! ev_userId event)
         (shopGrouped (s_cart session)))
      (with_calls (calls w ++ [StripeConstructEvent] ++
         [RedisGet ("payment-session:" +:+ ev_sessionId event)] ++
         [DbFindUnique "users" (ev_userId event)]) w) = (wb, inr tt) ∧
    w1 = with_logs (logs wb ++ [mkLogEntry "success"
           "Stripe webhook processed for session unknown" "order-service"])
           (with_calls (calls wb ++ [SendLog]) wb) ∧
    Forall (λ i, ci_shopId i ∉ objectPrototypeKeys) (s_cart session).
Proof.
  intros Hsig Hne Hce Hty Hs H.
  rewrite (createOrder_verified _ _ _ _ Hsig Hne Hce), Hty in H.
  simpl String.eqb in H. unfold try_catch in H.
  match type of H with
  | match ?b with _ => _ end = _ => destruct b as [wx [e|r]] eqn:Hb
  end; [done|].
  injection H as -> ->.
  apply bind_inv_ok in Hb as (wa & [] & Ha & Hb).
  injection Ha as <-.
  apply bind_inv_ok in Hb as (wb & early & Hp & Hb).
  unfold paymentSucceeded in Hp.
  apply bind_inv_ok in Hp as (wc & data & Hg & Hp).
  injection Hg as <- <-. simpl in Hp. rewrite Hs in Hp.
  apply bind_inv_ok in Hp as (wd & user & Hu & Hp).
  injection Hu as <- <-. simpl in Hp.
  apply bind_inv_ok in Hp as (wg & grouped & Hgr & Hp).
  apply groupByShop_inv in Hgr as (-> & -> & Hproto).
  apply bind_inv_ok in Hp as (we & [] & Hf & Hp).
  injection Hp as <- <-.
  injection Hb as <-.
  exists we. split; [|done].
  rewrite <- Hf. f_equal. unfold with_calls. simpl. f_equal.
  by rewrite <- !app_assoc.
Qed.

(** The handler when the session of a succeeded payment is not in the
    store. *)
Lemma createOrder_no_session req sig event w :
  wr_stripe_signature req = Some sig → sig ≠ "" →
  constructEvent (wr_rawBody req) sig webhookSecret = inr event →
  ev_type event = "payment_intent.succeeded" →
  redis w !! ("payment-session:" +:+ ev_sessionId event) = None →
  createOrder webhookSecret constructEvent objectId req w =
    (with_calls (calls w ++ [StripeConstructEvent;
        RedisGet ("payment-session:" +:+ ev_sessionId event)]) w,
     Send 200 "No session found, skipping order creation").
Proof.
  intros Hsig Hne Hce Hty Hs.
  rewrite (createOrder_verified _ _ _ _ Hsig Hne Hce), Hty.
  unfold try_catch, paymentSucceeded, redis_get, call, gets, modify,
    mbind, M_bind, mret, M_ret.
  simpl. rewrite Hs. unfold with_calls. simpl.
  by rewrite <- app_assoc.
Qed.

(** C1. A "payment succeeded" event delivered again after a run that
    materialized its session is a no-op: the first run has deleted the
    session, so the second finds none, acknowledges with 200 and leaves
    every table, the store, the outbox and the log as they were; its only
    calls are the signature check and the one read of the session key. *)
Theorem replay_is_noop req sig event session w w1 :
  wr_stripe_signature req = Some sig → sig ≠ "" →
  constructEvent (wr_rawBody req) sig webhookSecret = inr event →
  ev_type event = "payment_intent.succeeded" →
  redis w !! ("payment-session:" +:+ ev_sessionId event) = Some session →
  s_cart session ≠ [] →
  createOrder webhookSecret constructEvent objectId req w
    = (w1, Json 200 BReceived) →
  redis w1 !! ("payment-session:" +:+ ev_sessionId event) = None ∧
  ∃ w2,
    createOrder webhookSecret constructEvent objectId req w1
      = (w2, Send 200 "No session found, skipping order creation") ∧
    data w2 = data w1 ∧
    calls w2 = calls w1 ++ [StripeConstructEvent;
      RedisGet ("payment-session:" +:+ ev_sessionId event)].
Proof.
  intros Hsig Hne Hce Hty Hs Hcart H.
  destruct (createOrder_materialized _ _ _ _ _ _ Hsig Hne Hce Hty Hs H)
    as (wb & Hloop & -> & _).
  apply groups_delete in Hloop; [|by apply shopGrouped_nonempty].
  assert (Hgone : redis (with_logs (logs wb ++ [mkLogEntry "success"
      "Stripe webhook processed for session unknown" "order-service"])
      (with_calls (calls wb ++ [SendLog]) wb))
      !! ("payment-session:" +:+ ev_sessionId event) = None) by exact Hloop.
  split; [exact Hgone|].
  eexists. split; [by apply (createOrder_no_session _ sig)|]. done.
Qed.

(** *** One order per shop *)

Lemma ordersFor_shops userId session n gs :
  o_shopId <$> ordersFor objectId userId session n gs = gs.*1.
Proof.
  revert n. induction gs as [|g gs IH]; intros n; simpl; [done|].
  by rewrite IH.
Qed.

Lemma ordersFor_length userId session n gs :
  length (ordersFor objectId userId session n gs) = length gs.
Proof.
  revert n. induction gs as [|g gs IH]; intros n; simpl; [done|].
  by rewrite IH.
Qed.

Lemma ordersFor_elem userId session n gs o :
  o ∈ ordersFor objectId userId session n gs →
  ∃ g oid, g ∈ gs ∧ o = orderData userId session g oid.
Proof.
  revert n. induction gs as [|g gs IH]; intros n; simpl; intros H.
  - by apply elem_of_nil in H.
  - apply elem_of_cons in H as [->|H].
    + exists g, (objectId n). split; [apply list_elem_of_here | done].
    + destruct (IH _ H) as (g' & oid & Hg & ->).
      exists g', oid. split; [by apply list_elem_of_further | done].
Qed.

(** The orders an acknowledged materialization has stored. *)
Lemma createOrder_orders req sig event session w w1 :
  wr_stripe_signature req = Some sig → sig ≠ "" →
  constructEvent (wr_rawBody req) sig webhookSecret = inr event →
  ev_type event = "payment_intent.succeeded" →
  redis w !! ("payment-session:" +:+ ev_sessionId event) = Some session →
  createOrder webhookSecret constructEvent objectId req w
    = (w1, Json 200 BReceived) →
  orders w1 = orders w ++
    ordersFor objectId (ev_userId event) session (length (orders w))
      (shopGrouped (s_cart session)).
Proof.
  intros Hsig Hne Hce Hty Hs H.
  destruct (createOrder_materialized _ _ _ _ _ _ Hsig Hne Hce Hty Hs H)
    as (wb & Hloop & -> & _).
  apply groups_orders in Hloop. exact Hloop.
Qed.

(** An acknowledged materialization has mailed the buyer once per shop of
    the cart. *)
Lemma createOrder_emails req sig event session w w1 :
  wr_stripe_signature req = Some sig → sig ≠ "" →
  constructEvent (wr_rawBody req) sig webhookSecret = inr event →
  ev_type event = "payment_intent.succeeded" →
  redis w !! ("payment-session:" +:+ ev_sessionId event) = Some session →
  createOrder webhookSecret constructEvent objectId req w
    = (w1, Json 200 BReceived) →
  length (emails w1) =
    (length (emails w)
       + size (list_to_set (ci_shopId <$> s_cart session) : gset string))%nat.
Proof.
  intros Hsig Hne Hce Hty Hs H.
  destruct (createOrder_materialized _ _ _ _ _ _ Hsig Hne Hce Hty Hs H)
    as (wb & Hloop & -> & _).
  apply groups_emails in Hloop. rewrite <- shopGrouped_length. exact Hloop.
Qed.

(** What the stored orders are, in terms of the cart. *)
Lemma ordersFor_shopGrouped userId session n :
  let cart := s_cart session in
  let new := ordersFor objectId userId session n (shopGrouped cart) in
  length new = size (list_to_set (ci_shopId <$> cart) : gset string) ∧
  NoDup (o_shopId <$> new) ∧
  (∀ i, i ∈ cart → ci_shopId i ∈ o_shopId <$> new) ∧
  (∀ o, o ∈ new →
     let lines := spec_shopLines (o_shopId o) cart in
     lines ≠ [] ∧
     o_items o = toOrderItem <$> lines ∧
     o_userId o = userId ∧
     o_status o = "Paid" ∧
     o_total o = orderTotalOf (s_coupon session) lines).
Proof.
  intros cart new. subst new.
  rewrite ordersFor_length, ordersFor_shops.
  split; [apply shopGrouped_length|].
  split; [apply shopGrouped_NoDup|].
  split.
  - intros i Hi. apply shopGrouped_keys, list_elem_of_fmap. by exists i.
  - intros o Ho. apply ordersFor_elem in Ho as ([k v] & oid & Hg & ->).
    apply shopGrouped_entry in Hg as [-> Hne]. simpl.
    repeat split; done.
Qed.

(** *** The run succeeds when the catalog has the cart's products *)

Lemma materializeGroup_succeeds ids sessionKey sessionId userId session name
    email grouped g :
  (∀ i, i ∈ g.2 → ci_id i ∈ ids) →
  succeeds (in_catalog ids)
    (materializeGroup objectId sessionKey sessionId userId session name email
       grouped g).
Proof.
  intros Hg. unfold materializeGroup.
  apply succeeds_bind; [repeat succeeds_step I | intros order].
  apply succeeds_bind.
  { apply succeeds_forM_. intros item Hitem. unfold updateProductAnalytics.
    repeat succeeds_step (products_update_succeeds ids (ci_id item)
      (ci_quantity item) (Hg item Hitem)). }
  intros _. apply succeeds_bind; [repeat succeeds_step I | intros _].
  apply succeeds_bind; [repeat succeeds_step I | intros sellerShops].
  apply succeeds_bind.
  { apply succeeds_forM_. intros shop _. repeat succeeds_step I. }
  intros _. repeat succeeds_step I.
Qed.

Lemma groups_succeed sessionKey sessionId userId session name email w :
  in_catalog (ci_id <$> s_cart session) w →
  ∃ w', forM_ (shopGrouped (s_cart session))
          (materializeGroup objectId sessionKey sessionId userId session name
             email (shopGrouped (s_cart session))) w = (w', inr tt).
Proof.
  intros Hw.
  destruct (succeeds_forM_ (in_catalog (ci_id <$> s_cart session))
    (shopGrouped (s_cart session))
    (materializeGroup objectId sessionKey sessionId userId session name
       email (shopGrouped (s_cart session)))) with (w := w)
    as (w' & [] & H & _); [|done|by exists w'].
  intros [k v] Hg. apply materializeGroup_succeeds. simpl. intros i Hi.
  apply shopGrouped_entry in Hg as [-> _].
  apply list_elem_of_filter in Hi as [_ Hi].
  apply list_elem_of_fmap. by exists i.
Qed.

Lemma createOrder_succeeds req sig event session w :
  wr_stripe_signature req = Some sig → sig ≠ "" →
  constructEvent (wr_rawBody req) sig webhookSecret = inr event →
  ev_type event = "payment_intent.succeeded" →
  redis w !! ("payment-session:" +:+ ev_sessionId event) = Some session →
  in_catalog (ci_id <$> s_cart session) w →
  Forall (λ line, ci_shopId line ∉ objectPrototypeKeys) (s_cart session) →
  ∃ w1, createOrder webhookSecret constructEvent objectId req w
          = (w1, Json 200 BReceived).
Proof.
  intros Hsig Hne Hce Hty Hs Hcat Hproto.
  rewrite (createOrder_verified _ _ _ _ Hsig Hne Hce), Hty.
  unfold try_catch, paymentSucceeded, redis_get, users_findUnique, call,
    gets, modify, mbind, M_bind, mret, M_ret.
  simpl. rewrite Hs, (groupByShop_ok _ Hproto). unfold mret, M_ret.
  match goal with
  | |- context [forM_ _ (materializeGroup _ _ _ _ _ ?n ?e _) ?w0] =>
      destruct (groups_succeed
        ("payment-session:" +:+ ev_sessionId event) (ev_sessionId event)
        (ev_userId event) session n e w0) as (w' & Hloop);
        [exact Hcat|]
  end.
  rewrite Hloop. simpl. by eexists.
Qed.

(** C2. A session whose cart spans n distinct shops materializes into
    exactly n orders, one per shop.  When the catalog has the cart's
    products, and no shop id is a name that a plain object inherits, the
    webhook acknowledges, and the orders it has added are as many as the
    cart has distinct shop ids, no two for one shop, one for the shop of
    every line.  Each holds exactly the lines of its shop, in cart order,
    with their product, quantity, price and options, and its total is the
    sum of quantity times sale price over those lines, added as doubles
    in cart order; where the coupon's product is among the lines, the
    discount of the cached coupon is taken off that sum. *)
Theorem one_order_per_shop req sig event session w :
  wr_stripe_signature req = Some sig → sig ≠ "" →
  constructEvent (wr_rawBody req) sig webhookSecret = inr event →
  ev_type event = "payment_intent.succeeded" →
  redis w !! ("payment-session:" +:+ ev_sessionId event) = Some session →
  in_catalog (ci_id <$> s_cart session) w →
  Forall (λ line, ci_shopId line ∉ objectPrototypeKeys) (s_cart session) →
  ∃ w1 new,
    createOrder webhookSecret constructEvent objectId req w
      = (w1, Json 200 BReceived) ∧
    orders w1 = orders w ++ new ∧
    length new
      = size (list_to_set (ci_shopId <$> s_cart session) : gset string) ∧
    NoDup (o_shopId <$> new) ∧
    (∀ line, line ∈ s_cart session → ci_shopId line ∈ o_shopId <$> new) ∧
    (∀ o, o ∈ new →
       let lines := spec_shopLines (o_shopId o) (s_cart session) in
       lines ≠ [] ∧
       o_items o =
         (λ line, mkOrderItem (ci_id line) (ci_quantity line)
                    (ci_sale_price line) (ci_selectedOptions line))
           <$> lines ∧
       o_userId o = ev_userId event ∧
       o_status o = "Paid" ∧
       (¬ spec_couponBears (s_coupon session) lines →
        o_total o = spec_shopTotal lines) ∧
       (∀ c pid line,
          s_coupon session = Some c →
          cp_discountedProductId c = Some pid → pid ≠ "" →
          find (λ l, String.eqb (ci_id l) pid) lines = Some line →
          o_total o =
            (spec_shopTotal lines
             - (if greaterThanZero (cp_discountPercent c)
                then ToNumber (ci_sale_price line) * ofZ (ci_quantity line)
                       * cp_discountPercent c / 100
                else ToNumber (cp_discountAmount c)))%float)).
Proof.
  intros Hsig Hne Hce Hty Hs Hcat Hproto.
  destruct (createOrder_succeeds _ _ _ _ _ Hsig Hne Hce Hty Hs Hcat Hproto)
    as [w1 Hrun].
  exists w1, (ordersFor objectId (ev_userId event) session
                (length (orders w)) (shopGrouped (s_cart session))).
  split; [exact Hrun|].
  split; [by eapply createOrder_orders|].
  destruct (ordersFor_shopGrouped (ev_userId event) session
              (length (orders w))) as (Hlen & Hnd & Hcov & Heach).
  split; [exact Hlen|]. split; [exact Hnd|]. split; [exact Hcov|].
  intros o Ho lines. destruct (Heach o Ho) as (Hlines & Hitems & Hu & Hst & Ht).
  fold lines in Hlines, Hitems, Ht.
  split; [exact Hlines|]. split; [exact Hitems|].
  split; [exact Hu|]. split; [exact Hst|]. split.
  - intros Hno. rewrite Ht. unfold orderTotalOf.
    rewrite (discountedItem_None _ _ Hno). apply lineTotal_spec.
  - intros c pid line Hc Hpid Hpne Hfind. rewrite Ht, Hc.
    unfold orderTotalOf.
    rewrite (discountedItem_found _ _ _ _ Hpid Hpne Hfind).
    by rewrite lineTotal_spec.
Qed.

(** C3, as the code has it.  The order of a group in which the coupon's
    product is present gets the group's sum less a discount taken from the
    coupon cached in the session, with no clamp of its own: the price of
    the first line of that product times its quantity times the cached
    [discountPercent], over 100, when that percentage is positive, and the
    cached [discountAmount] otherwise, whatever the line's price.  The
    order records the cached amount and the coupon's code. *)
Theorem group_discount_as_cached sessionKey sessionId userId session name
    email grouped g w w' r c pid item :
  materializeGroup objectId sessionKey sessionId userId session name email
    grouped g w = (w', r) →
  s_coupon session = Some c →
  cp_discountedProductId c = Some pid → pid ≠ "" →
  find (λ line, String.eqb (ci_id line) pid) g.2 = Some item →
  ∃ o,
    orders w' = orders w ++ [o] ∧
    o_shopId o = g.1 ∧
    o_total o =
      (spec_shopTotal g.2
       - (if greaterThanZero (cp_discountPercent c)
          then ToNumber (ci_sale_price item) * ofZ (ci_quantity item)
                 * cp_discountPercent c / 100
          else ToNumber (cp_discountAmount c)))%float ∧
    o_discountAmount o = or_zero (cp_discountAmount c) ∧
    o_couponCode o = or_null (cp_code c) ∧
    item ∈ g.2 ∧ ci_id item = pid.
Proof.
  intros Hrun Hc Hpid Hne Hfind. apply materializeGroup_orders in Hrun.
  eexists. split; [exact Hrun|]. simpl. unfold orderTotalOf.
  rewrite Hc, (discountedItem_found _ _ _ _ Hpid Hne Hfind), lineTotal_spec.
  repeat split; try done.
  - apply find_some in Hfind as [Hin _]. by apply list_elem_of_In.
  - apply find_some in Hfind as [_ Heq]. by apply String.eqb_eq in Heq.
Qed.

(** C6. A webhook request whose signature header is missing, or whose
    signature does not verify against the secret, is answered with 400
    before anything else runs: the store, the tables, the outbox and the
    log are as they were, and the only call made is, at most, the
    verification itself. *)
Theorem bad_signature_rejected req w :
  (wr_stripe_signature req = None ∨ wr_stripe_signature req = Some "" ∨
   ∃ sig message, wr_stripe_signature req = Some sig ∧
     constructEvent (wr_rawBody req) sig webhookSecret = inl message) →
  ∃ w' text,
    createOrder webhookSecret constructEvent objectId req w
      = (w', Send 400 text) ∧
    data w' = data w ∧
    (calls w' = calls w ∨ calls w' = calls w ++ [StripeConstructEvent]).
Proof.
  unfold createOrder. intros [H|[H|(sig & message & H & Hce)]]; rewrite H.
  - exists w. eexists. split; [reflexivity|]. by split; [|left].
  - exists w. eexists. split; [reflexivity|]. by split; [|left].
  - destruct sig as [|a sig].
    + exists w. eexists. split; [reflexivity|]. by split; [|left].
    + rewrite Hce. eexists _, _. split; [reflexivity|]. by split; [|right].
Qed.

(** C10. A verified event of any other type than
    [payment_intent.succeeded] is acknowledged with 200 and touches
    nothing: the session store is neither read nor written, no table
    changes and nothing is mailed; the handler only writes its success
    line to the log. *)
Theorem other_event_acknowledged req sig event w :
  wr_stripe_signature req = Some sig → sig ≠ "" →
  constructEvent (wr_rawBody req) sig webhookSecret = inr event →
  ev_type event ≠ "payment_intent.succeeded" →
  ∃ w',
    createOrder webhookSecret constructEvent objectId req w
      = (w', Json 200 BReceived) ∧
    calls w' = calls w ++ [StripeConstructEvent; SendLog] ∧
    redis w' = redis w ∧ orders w' = orders w ∧
    products w' = products w ∧
    productAnalytics w' = productAnalytics w ∧
    userAnalytics w' = userAnalytics w ∧
    notifications w' = notifications w ∧ emails w' = emails w ∧
    logs w' = logs w ++ [mkLogEntry "success"
      "Stripe webhook processed for session unknown" "order-service"].
Proof.
  intros Hsig Hne Hce Hty.
  rewrite (createOrder_verified _ _ _ _ Hsig Hne Hce).
  apply String.eqb_neq in Hty. rewrite Hty.
  eexists. split; [reflexivity|]. simpl.
  by rewrite <- app_assoc.
Qed.

End CreateOrder.

(** ** Verify coupon code *)

(** [toFixed(2)] moves an amount by half a hundredth at most. *)
Lemma toFixed2_near x :
  (x - (1 # 200) <= toFixed2 x # 100 <= x + (1 # 200))%Q.
Proof.
  unfold toFixed2. destruct (Qle_bool 0 x).
  - pose proof (Qfloor_le (x * 100 + (1 # 2))) as Hlo.
    pose proof (Qlt_floor (x * 100 + (1 # 2))) as Hhi.
    rewrite inject_Z_plus in Hhi.
    rewrite (Qmake_Qdiv (Qfloor _) 100).
    set (f := inject_Z (Qfloor _)) in *.
    change (inject_Z 1) with 1%Q in Hhi.
    change (inject_Z (Z.pos 100)) with 100%Q.
    split; apply Qle_shift_div_l || apply Qle_shift_div_r; try done; lra.
  - pose proof (Qfloor_le (- x * 100 + (1 # 2))) as Hlo.
    pose proof (Qlt_floor (- x * 100 + (1 # 2))) as Hhi.
    rewrite inject_Z_plus in Hhi.
    rewrite (Qmake_Qdiv (- Qfloor _) 100), inject_Z_opp.
    set (f := inject_Z (Qfloor _)) in *.
    change (inject_Z 1) with 1%Q in Hhi.
    change (inject_Z (Z.pos 100)) with 100%Q.
    split; apply Qle_shift_div_l || apply Qle_shift_div_r; try done; lra.
Qed.

Lemma toFixed2_nonneg x : (0 <= x)%Q → (0 <= toFixed2 x)%Z.
Proof.
  intros Hx. unfold toFixed2.
  destruct (Qle_bool 0 x) eqn:Hb.
  - change 0%Z with (Qfloor 0). apply Qfloor_resp_le. lra.
  - apply not_true_iff_false in Hb. rewrite Qle_bool_iff in Hb. done.
Qed.

Lemma toFixed2_nonpos x : ¬ (0 <= x)%Q → (toFixed2 x <= 0)%Z.
Proof.
  intros Hx. unfold toFixed2.
  destruct (Qle_bool 0 x) eqn:Hb.
  - apply Qle_bool_iff in Hb. done.
  - assert (0 <= Qfloor (- x * 100 + (1 # 2)))%Z; [|lia].
    change 0%Z with (Qfloor 0). apply Qfloor_resp_le. lra.
Qed.

(** [toFixed(2)] keeps the order of amounts. *)
Lemma toFixed2_mono x y : (x <= y)%Q → (toFixed2 x <= toFixed2 y)%Z.
Proof.
  intros Hxy.
  destruct (Qlt_le_dec x 0) as [Hx|Hx], (Qlt_le_dec y 0) as [Hy|Hy].
  - unfold toFixed2.
    assert (Hbx : Qle_bool 0 x = false)
      by (apply not_true_iff_false; rewrite Qle_bool_iff; lra).
    assert (Hby : Qle_bool 0 y = false)
      by (apply not_true_iff_false; rewrite Qle_bool_iff; lra).
    rewrite Hbx, Hby.
    assert (Qfloor (- y * 100 + (1 # 2)) <= Qfloor (- x * 100 + (1 # 2)))%Z;
      [|lia].
    apply Qfloor_resp_le. lra.
  - assert (Hnx : ¬ (0 <= x)%Q) by lra.
    pose proof (toFixed2_nonpos x Hnx). pose proof (toFixed2_nonneg y Hy).
    lia.
  - lra.
  - unfold toFixed2.
    rewrite !(proj2 (Qle_bool_iff _ _)) by lra.
    apply Qfloor_resp_le. lra.
Qed.

(** An amount in whole hundredths is printed as it is. *)
Lemma toFixed2_hundredths k x : (x == k # 100)%Q → toFixed2 x = k.
Proof.
  intros Hx.
  assert (Hlo : (toFixed2 (k # 100) <= toFixed2 x)%Z)
    by (apply toFixed2_mono; lra).
  assert (Hhi : (toFixed2 x <= toFixed2 (k # 100))%Z)
    by (apply toFixed2_mono; lra).
  assert (Hk : toFixed2 (k # 100) = k); [|lia].
  unfold toFixed2, Qle_bool, Qfloor. simpl.
  change (Z.pos (100 * 1 * 2)) with 200%Z.
  change (Z.pos (100 * 1)) with 100%Z.
  destruct (Z.leb_spec (0 * 100) (k * 1)) as [Hs|Hs].
  - symmetry. apply Z.div_unique with (r := 100%Z); lia.
  - assert (((- k * 100 * 2 + 1 * 100) `div` 200 = - k)%Z); [|lia].
    symmetry. apply Z.div_unique with (r := 100%Z); lia.
Qed.

(** The value of a double that has one is its value on the real line. *)
Lemma exact_real x q : exact x = Some q ↔ real x = Some (Finite q).
Proof. unfold exact. destruct (real x) as [[| |]|]; naive_solver. Qed.

(** [Math.min] of two finite doubles is one of them, and its value is
    the lesser of their values. *)
Lemma Math_min_exact a b x y :
  exact a = Some x → exact b = Some y →
  ∃ m, exact (Math_min a b) = Some m ∧ (m == Qmin x y)%Q.
Proof.
  intros Ha Hb. unfold Math_min.
  rewrite (proj1 (exact_real _ _) Ha), (proj1 (exact_real _ _) Hb). simpl.
  destruct (Qle_bool y x) eqn:Hyx; simpl.
  - apply Qle_bool_iff in Hyx.
    destruct (Qle_bool x y) eqn:Hxy; simpl.
    + apply Qle_bool_iff in Hxy.
      assert (Hmin : (Qmin x y == x)%Q) by (by apply Q.min_l).
      assert (Hxy' : (x == y)%Q) by (by apply Qle_antisym).
      destruct (Prim2SF a) as [[|]| | |]; eexists; (split; [eassumption|]);
        rewrite Hmin; by rewrite ?Hxy'.
    + exists y. split; [done|]. symmetry. by apply Q.min_r.
  - exists x. split; [done|]. symmetry. apply Q.min_l.
    apply Qlt_le_weak, Qnot_le_lt. intros H.
    apply Qle_bool_iff in H. congruence.
Qed.

(** Whatever the first argument, [Math.min] is at most its second. *)
Lemma Math_min_le_r a b y m :
  exact b = Some y → exact (Math_min a b) = Some m → (m <= y)%Q.
Proof.
  intros Hb. unfold Math_min.
  rewrite (proj1 (exact_real _ _) Hb).
  destruct (real a) as [[|x|]|] eqn:Ha; simpl.
  - unfold exact. by rewrite Ha.
  - destruct (Qle_bool y x) eqn:Hyx; simpl.
    + destruct (Qle_bool x y) eqn:Hxy; simpl.
      * apply Qle_bool_iff in Hxy.
        destruct (Prim2SF a) as [[|]| | |]; intros Hm;
          try (rewrite Hb in Hm; injection Hm as <-; apply Qle_refl);
          apply exact_real in Hm; rewrite Ha in Hm; by injection Hm as <-.
      * intros Hm. rewrite Hb in Hm. injection Hm as <-. apply Qle_refl.
    + intros Hm. apply exact_real in Hm. rewrite Ha in Hm.
      injection Hm as <-. apply Qlt_le_weak, Qnot_le_lt. intros H.
      apply Qle_bool_iff in H. congruence.
  - intros Hm. rewrite Hb in Hm. injection Hm as <-. apply Qle_refl.
  - done.
Qed.

(** What [toFixed(2)] prints for a finite double below 10^21 in size. *)
Lemma Number_toFixed2_finite x q :
  exact x = Some q → (Qabs q < 1000000000000000000000)%Q →
  amount_hundredths (Number_toFixed2 x) = Some (toFixed2 q).
Proof.
  intros Hx Hq. unfold Number_toFixed2. rewrite Hx.
  replace (Qle_bool _ (Qabs q)) with false.
  2:{ symmetry. apply not_true_iff_false. rewrite Qle_bool_iff.
      by apply Qlt_not_le. }
  simpl. f_equal. rewrite N2Z.inj_abs_N.
  destruct (Qle_bool 0 q) eqn:H0; simpl.
  - apply Qle_bool_iff, toFixed2_nonneg in H0. lia.
  - assert (Hneg : ¬ (0 <= q)%Q).
    { intros H. apply Qle_bool_iff in H. congruence. }
    apply toFixed2_nonpos in Hneg. lia.
Qed.

Lemma Number_toFixed2_printed x printed :
  amount_hundredths (Number_toFixed2 x) = Some printed →
  ∃ q, exact x = Some q ∧ printed = toFixed2 q.
Proof.
  unfold Number_toFixed2. destruct (exact x) as [q|] eqn:Hx; [|done].
  destruct (Qle_bool _ (Qabs q)) eqn:Hbig; [done|].
  intros H. exists q. split; [done|].
  assert (Hq : (Qabs q < 1000000000000000000000)%Q).
  { apply Qnot_le_lt. intros Hle. apply Qle_bool_iff in Hle. congruence. }
  pose proof (Number_toFixed2_finite x q Hx Hq) as Hp.
  unfold Number_toFixed2 in Hp. rewrite Hx, Hbig in Hp. congruence.
Qed.

(** The handler on a code that exists and a cart with a matching line. *)
Lemma verifyCouponCode_match req w discount item :
  wq_couponCode req ≠ "" →
  discounts w !! wq_couponCode req = Some discount →
  find (λ item, existsb (λ d, String.eqb d (d_id discount))
                  (ci_discount_codes item)) (wq_cart req) = Some item →
  verifyCouponCode req w =
    (with_logs (logs w ++ [mkLogEntry "success"
        ("Coupon " +:+ wq_couponCode req +:+ " verified for user "
           +:+ default "unknown" (or_null (wq_userId req)))
        "order-service"])
       (with_calls (calls w ++
          [DbFindUnique "discount_codes" (wq_couponCode req); SendLog]) w),
     Json 200 (BCoupon true (d_discountValue discount)
       (Number_toFixed2
          (Math_min
             (rawDiscount discount
                (ToNumber (ci_sale_price item) * ofZ (ci_quantity item)))
             (ToNumber (ci_sale_price item) * ofZ (ci_quantity item))))
       (Some (ci_id item)) (Some (d_discountType discount))
       "Discount applied to 1 eligible product")).
Proof.
  intros Hcode Hd Hfind. unfold verifyCouponCode.
  apply String.eqb_neq in Hcode. rewrite Hcode.
  assert (Hcart : wq_cart req ≠ []) by (by intros E; rewrite E in Hfind).
  rewrite bool_decide_eq_false_2 by done.
  unfold try_catch, discount_codes_findUnique, sendLog, call, gets, modify,
    mbind, M_bind, mret, M_ret.
  simpl. rewrite Hd, Hfind. simpl. unfold with_logs, with_calls. simpl.
  by rewrite <- app_assoc.
Qed.

(** C4, as the code has it.  For a non-empty code that exists and a cart
    with a line carrying it, the reply is valid and its [discountAmount]
    is the text that [toFixed(2)] prints for [Math.min(d, linePrice)],
    where [linePrice] is the sale price times the quantity of the first
    such line and [d] is [linePrice * value / 100] for a percentage coupon
    and [value] for a flat one, all in double arithmetic.  The clamp takes
    the lesser of the two values; the text has two decimals and is within
    half a hundredth of the clamped double; and the reply depends on the
    code, the cart and the coupon's row only. *)
Theorem coupon_discount_clamped req w discount item :
  wq_couponCode req ≠ "" →
  discounts w !! wq_couponCode req = Some discount →
  find (λ item, existsb (λ d, String.eqb d (d_id discount))
                  (ci_discount_codes item)) (wq_cart req) = Some item →
  let linePrice :=
    (ToNumber (ci_sale_price item) * ofZ (ci_quantity item))%float in
  let d :=
    if String.eqb (d_discountType discount) "percentage"
    then (linePrice * d_discountValue discount / 100)%float
    else if String.eqb (d_discountType discount) "flat"
    then d_discountValue discount
    else 0%float in
  let clamped := Math_min d linePrice in
  (verifyCouponCode req w).2 =
    Json 200 (BCoupon true (d_discountValue discount)
      (Number_toFixed2 clamped)
      (Some (ci_id item)) (Some (d_discountType discount))
      "Discount applied to 1 eligible product") ∧
  (∀ x y, exact d = Some x → exact linePrice = Some y →
     ∃ m, exact clamped = Some m ∧ (m == Qmin x y)%Q) ∧
  (∀ m, exact clamped = Some m → (Qabs m < 1000000000000000000000)%Q →
     ∃ printed,
       amount_hundredths (Number_toFixed2 clamped) = Some printed ∧
       (m - (1 # 200) <= printed # 100 <= m + (1 # 200))%Q) ∧
  (∀ w2, discounts w2 !! wq_couponCode req = Some discount →
     (verifyCouponCode req w2).2 = (verifyCouponCode req w).2).
Proof.
  intros Hcode Hd Hfind linePrice d clamped.
  rewrite (verifyCouponCode_match _ _ _ _ Hcode Hd Hfind).
  split; [done|]. split; [|split].
  - intros x y Hx Hy. by apply Math_min_exact.
  - intros m Hm Hsize. exists (toFixed2 m).
    split; [by apply Number_toFixed2_finite | apply toFixed2_near].
  - intros w2 Hd2. by rewrite (verifyCouponCode_match _ _ _ _ Hcode Hd2 Hfind).
Qed.

(** C9, as the code has it.  A non-empty code that is not in the
    discount-code table, posted with a non-empty cart, is refused at once
    with the validation error "Coupon code isn't valid!" handed to the
    error middleware (no [valid: false] reply is produced); nothing is
    written, and the single lookup of the code is the only call made. *)
Theorem unknown_coupon_refused req w :
  wq_couponCode req ≠ "" → wq_cart req ≠ [] →
  discounts w !! wq_couponCode req = None →
  verifyCouponCode req w =
    (with_calls
       (calls w ++ [DbFindUnique "discount_codes" (wq_couponCode req)]) w,
     Next (ValidationError "Coupon code isn't valid!")).
Proof.
  intros Hcode Hcart Hd. unfold verifyCouponCode.
  apply String.eqb_neq in Hcode. rewrite Hcode.
  rewrite bool_decide_eq_false_2 by done.
  unfold try_catch, discount_codes_findUnique, call, gets, modify,
    mbind, M_bind, mret, M_ret.
  simpl. by rewrite Hd.
Qed.

(** ** Update order status *)

Lemma allowed_spec status :
  existsb (String.eqb status) allowedStatuses = true
  ↔ status ∈ allowedStatuses.
Proof.
  rewrite existsb_exists. split.
  - intros (x & Hin & Heq). apply String.eqb_eq in Heq. subst x.
    by apply list_elem_of_In.
  - intros H. exists status.
    split; [by apply list_elem_of_In | apply String.eqb_refl].
Qed.

Lemma allowed_not_Paid status : status ∈ allowedStatuses → status ≠ "Paid".
Proof.
  unfold allowedStatuses. rewrite !elem_of_cons, elem_of_nil.
  intros H ->. repeat destruct H as [H|H]; done.
Qed.

(** Any allowed status is accepted, whatever the status of the order. *)
Lemma status_update_accepts req w i old :
  ur_orderId req ≠ "" →
  ur_deliveryStatus req ∈ allowedStatuses →
  list_find (λ o, o_id o = ur_orderId req) (orders w) = Some (i, old) →
  updateDeliveryStatus req w =
    (with_orders (<[i := set_status (ur_deliveryStatus req) old]> (orders w))
       (with_calls (calls w ++ [DbFindUnique "orders" (ur_orderId req);
          DbUpdate "orders" (ur_orderId req)]) w),
     Json 200 (BOrderUpdated "Delivery status updated successfully."
       (set_status (ur_deliveryStatus req) old))).
Proof.
  intros Hid Hst Hfind. unfold updateDeliveryStatus.
  apply String.eqb_neq in Hid. rewrite Hid.
  assert (Hne : String.eqb (ur_deliveryStatus req) "" = false).
  { apply String.eqb_neq. intros E. rewrite E in Hst.
    unfold allowedStatuses in Hst.
    rewrite !elem_of_cons, elem_of_nil in Hst.
    repeat destruct Hst as [Hst|Hst]; done. }
  rewrite Hne. apply allowed_spec in Hst. rewrite Hst.
  unfold try_catch, orders_findUnique, orders_update, call, gets, modify,
    mbind, M_bind, mret, M_ret.
  simpl. rewrite Hfind. simpl. rewrite Hfind. simpl.
  unfold with_orders, with_calls. simpl. by rewrite <- app_assoc.
Qed.

(** The two ways a call can end: the order with the given id has been
    set to an allowed status, or the table is as it was. *)
Lemma status_update_cases req w w' resp :
  updateDeliveryStatus req w = (w', resp) →
  (∀ o', o' ∈ orders w' → o_status o' = "Paid" → o' ∈ orders w) ∧
  ((∃ i old,
      orders w !! i = Some old ∧ o_id old = ur_orderId req ∧
      ur_deliveryStatus req ∈ allowedStatuses ∧
      ur_deliveryStatus req ≠ "Paid" ∧
      orders w' = <[i := set_status (ur_deliveryStatus req) old]> (orders w) ∧
      resp = Json 200 (BOrderUpdated "Delivery status updated successfully."
               (set_status (ur_deliveryStatus req) old)))
   ∨ (orders w' = orders w ∧ ∀ m o, resp ≠ Json 200 (BOrderUpdated m o))).
Proof.
  intros Hrun.
  assert (Hcases :
    (∃ i old,
      orders w !! i = Some old ∧ o_id old = ur_orderId req ∧
      ur_deliveryStatus req ∈ allowedStatuses ∧
      ur_deliveryStatus req ≠ "Paid" ∧
      orders w' = <[i := set_status (ur_deliveryStatus req) old]> (orders w) ∧
      resp = Json 200 (BOrderUpdated "Delivery status updated successfully."
               (set_status (ur_deliveryStatus req) old)))
    ∨ (orders w' = orders w ∧ ∀ m o, resp ≠ Json 200 (BOrderUpdated m o))).
  { destruct (String.eqb_spec (ur_orderId req) "") as [Hid|Hid].
    { right. unfold updateDeliveryStatus in Hrun. rewrite Hid in Hrun.
      by injection Hrun as <- <-. }
    destruct (decide (ur_deliveryStatus req ∈ allowedStatuses)) as [Hst|Hst].
    - destruct (list_find (λ o, o_id o = ur_orderId req) (orders w))
        as [[i old]|] eqn:Hfind.
      + left. rewrite (status_update_accepts _ _ _ _ Hid Hst Hfind) in Hrun.
        injection Hrun as <- <-.
        apply list_find_Some in Hfind as (Hi & Hold & _).
        exists i, old. repeat split; try done. by apply allowed_not_Paid.
      + right. unfold updateDeliveryStatus in Hrun.
        apply String.eqb_neq in Hid. rewrite Hid in Hrun.
        apply allowed_spec in Hst. rewrite Hst in Hrun.
        destruct (String.eqb (ur_deliveryStatus req) "");
          [by injection Hrun as <- <-|].
        unfold try_catch, orders_findUnique, call, gets, modify,
          mbind, M_bind, mret, M_ret in Hrun.
        simpl in Hrun. rewrite Hfind in Hrun.
        by injection Hrun as <- <-.
    - right. unfold updateDeliveryStatus in Hrun.
      rewrite <- allowed_spec in Hst. apply not_true_is_false in Hst.
      rewrite Hst in Hrun.
      destruct (String.eqb (ur_orderId req) "" ||
                String.eqb (ur_deliveryStatus req) "");
        simpl in Hrun; by injection Hrun as <- <-. }
  split; [|exact Hcases].
  intros o' Ho' Hpaid.
  destruct Hcases as [(i & old & Hi & _ & _ & Hnp & Hw' & _)|[Hw' _]];
    [|by rewrite <- Hw'].
  rewrite Hw' in Ho'.
  apply list_elem_of_lookup in Ho' as [j Hj].
  apply list_lookup_insert_Some in Hj as [(-> & <- & _)|[_ Hj]].
  - by destruct Hnp.
  - apply list_elem_of_lookup. by exists j.
Qed.

(** C8, as the code has it.  [updateDeliveryStatus] sets the status of
    the order with the given id to the requested one whenever that status
    is one of "Ordered", "Packed", "Shipped", "Out for Delivery" and
    "Delivered", whatever status the order has: the order keeps its other
    fields, every other order is left as it was, and the reply carries the
    order as updated.  A status outside that list changes no order and is
    not answered as an update.  "Paid" is not in the list, so no order is
    "Paid" after the call that was not "Paid" before it. *)
Theorem status_update_within_allowed req w w' resp :
  updateDeliveryStatus req w = (w', resp) →
  (∀ i old,
     ur_orderId req ≠ "" →
     list_find (λ o, o_id o = ur_orderId req) (orders w) = Some (i, old) →
     ur_deliveryStatus req ∈
       ["Ordered"; "Packed"; "Shipped"; "Out for Delivery"; "Delivered"] →
     let new :=
       mkOrder (o_id old) (o_userId old) (o_shopId old) (o_total old)
         (ur_deliveryStatus req) (o_shippingAddressId old) (o_couponCode old)
         (o_discountAmount old) (o_items old) in
     orders w' = <[i := new]> (orders w) ∧
     (∀ j, j ≠ i → orders w' !! j = orders w !! j) ∧
     resp = Json 200
              (BOrderUpdated "Delivery status updated successfully." new)) ∧
  (ur_deliveryStatus req ∉
     ["Ordered"; "Packed"; "Shipped"; "Out for Delivery"; "Delivered"] →
   orders w' = orders w ∧ ∀ m o, resp ≠ Json 200 (BOrderUpdated m o)) ∧
  (∀ o', o' ∈ orders w' → o_status o' = "Paid" → o' ∈ orders w).
Proof.
  intros Hrun. split; [|split].
  - intros i old Hid Hfind Hst new.
    rewrite (status_update_accepts _ _ _ _ Hid Hst Hfind) in Hrun.
    injection Hrun as <- <-. simpl.
    split; [done|]. split; [|done].
    intros j Hj. by rewrite list_lookup_insert_ne.
  - intros Hst.
    destruct (status_update_cases _ _ _ _ Hrun)
      as [_ [(i & old & _ & _ & Hin & _)|Hsame]]; [|exact Hsame].
    by destruct Hst.
  - by destruct (status_update_cases _ _ _ _ Hrun) as [Hpaid _].
Qed.

(** ** Create payment session *)

#[export] Instance gains_carts_preorder : PreOrder gains_carts.
Proof.
  split; [intros w k s H; by left|].
  intros w1 w2 w3 H12 H23 k s H.
  destruct (H23 k s H) as [H2|?]; [by apply H12 | by right].
Qed.

Lemma keeps_redis_gains_carts {A} (c : M A) :
  respects (keeps redis) c → respects gains_carts c.
Proof.
  intros Hc w w' r H k s Hk. apply Hc in H. unfold keeps in H.
  left. by rewrite <- H.
Qed.

Lemma redis_del_gains_carts key : respects gains_carts (redis_del key).
Proof.
  intros w w' r [= <- _] k s H. simpl in H.
  apply lookup_delete_Some in H as [_ H]. by left.
Qed.

Lemma redis_setex_gains_carts key ttl v :
  s_cart v ≠ [] → respects gains_carts (redis_setex key ttl v).
Proof.
  intros Hv w w' r [= <- _] k s H. simpl in H.
  apply lookup_insert_Some in H as [[_ <-]|[_ H]]; [by right | by left].
Qed.

Lemma scanSessions_gains_carts userId normalizedCart keys :
  respects gains_carts (scanSessions userId normalizedCart keys).
Proof.
  induction keys as [|key keys IH]; simpl.
  - apply respects_ret; tc_solve.
  - apply respects_bind; try tc_solve.
    { apply keeps_redis_gains_carts. respects_tac. }
    intros [session|]; [|exact IH].
    destruct (String.eqb _ _); [|exact IH].
    apply respects_bind; try tc_solve.
    { apply keeps_redis_gains_carts. unfold normalizeCart, sort_localCompare.
      respects_tac. }
    intros existingCart. case_bool_decide.
    + apply respects_ret; tc_solve.
    + apply respects_bind; try tc_solve; [apply redis_del_gains_carts|].
      intros _. exact IH.
Qed.

(** [createPaymentSession] never stores a session with an empty cart:
    what it adds to the store has at least one line, and the rest was
    there before. *)
Lemma createPaymentSession_gains_carts uuid req w w' resp :
  createPaymentSession uuid req w = (w', resp) → gains_carts w w'.
Proof.
  unfold createPaymentSession, try_catch.
  destruct (sr_cart req) as [[|a cart]|] eqn:Hcart.
  - intros [= <- _]. reflexivity.
  - match goal with
    | |- (match ?body w with _ => _ end) = _ → _ =>
        assert (Hb : respects gains_carts body)
    end.
    { apply respects_bind; try tc_solve.
      { apply keeps_redis_gains_carts.
        unfold normalizeCart, sort_localCompare. respects_tac. }
      intros normalizedCart. apply respects_bind; try tc_solve.
      { apply keeps_redis_gains_carts. respects_tac. }
      intros keys. apply respects_bind; try tc_solve.
      { apply scanSessions_gains_carts. }
      intros [r|]; [apply respects_ret; tc_solve|].
      apply respects_bind; try tc_solve.
      { apply keeps_redis_gains_carts. respects_tac. }
      intros shops. apply respects_bind; try tc_solve.
      { by apply redis_setex_gains_carts. }
      intros _. apply respects_ret; tc_solve. }
    match goal with
    | |- (match ?body w with _ => _ end) = _ → _ =>
        destruct (body w) as [w1 [e|r]] eqn:Hrun
    end; intros [= <- _]; by eapply Hb.
  - intros [= <- _]. reflexivity.
Qed.

(** ** Further properties of the webhook *)

Lemma respects_weaken {A} (R R' : relation World) (c : M A) :
  (∀ w w', R w w' → R' w w') → respects R c → respects R' c.
Proof. intros HR Hc w w' r H. by apply HR, (Hc w w' r). Qed.

Lemma try_catch_respects R `{!PreOrder R} body handler w w' resp :
  respects R body → (∀ e, respects R (handler e)) →
  try_catch body handler w = (w', resp) → R w w'.
Proof.
  intros Hb Hh. unfold try_catch.
  destruct (body w) as [w1 [e|r]] eqn:Hrun.
  - destruct (handler e w1) as [w2 [e'|r]] eqn:Hrun2; intros [= <- _];
      (transitivity w1; [by eapply Hb | by eapply Hh]).
  - intros [= <- _]. by eapply Hb.
Qed.

#[export] Instance stock_conserved_preorder : PreOrder stock_conserved.
Proof.
  split; [by intros w i|]. intros w1 w2 w3 H12 H23 i.
  by rewrite (H23 i), (H12 i).
Qed.

#[export] Instance log_grows_preorder : PreOrder log_grows.
Proof.
  split.
  - intros w u old H. exists []. by rewrite app_nil_r.
  - intros w1 w2 w3 H12 H23 u old H.
    destruct (H12 u old H) as [m1 H1]. destruct (H23 u _ H1) as [m2 H2].
    exists (m1 ++ m2). by rewrite app_assoc.
Qed.

Lemma stock_conserved_is_Some w w' i :
  stock_conserved w w' →
  is_Some (products w' !! i) ↔ is_Some (products w !! i).
Proof. intros H. by rewrite <- !(fmap_is_Some (λ p, (p_stock p + p_totalSales p)%Z)), (H i). Qed.

Lemma products_update_conserved productId qty :
  respects stock_conserved (products_update productId qty).
Proof.
  intros w w' r. unfold products_update, call, gets, modify, throw,
    mbind, M_bind. simpl.
  destruct (products w !! productId) as [p|] eqn:Hp; intros [= <- _] i; simpl.
  - rewrite lookup_insert. case_decide; [subst i|done]. rewrite Hp. simpl.
    f_equal. lia.
  - done.
Qed.

Lemma updateProductAnalytics_conserved userId shopId item :
  respects stock_conserved (updateProductAnalytics userId shopId item).
Proof.
  unfold updateProductAnalytics.
  apply respects_bind; try tc_solve; [apply products_update_conserved|].
  intros _. apply (respects_weaken (keeps products)).
  { intros w w' H i. unfold keeps in H. by rewrite H. }
  respects_tac.
Qed.

(** The part of the world that only [updateProductAnalytics] writes. *)
Abbreviation ledgers := (λ w : World, (products w, userAnalytics w)).

Lemma updateProductAnalytics_log userId shopId item :
  respects log_grows (updateProductAnalytics userId shopId item).
Proof.
  intros w w' r H. unfold updateProductAnalytics in H.
  apply bind_inv in H as (w1 & r1 & H1 & H).
  apply (respects_run (keeps userAnalytics)) in H1; [|respects_tac].
  destruct r1 as [e|[]]; [destruct H as [-> _]|].
  { intros u old Hu. exists []. rewrite app_nil_r. by rewrite H1. }
  apply bind_inv in H as (w2 & r2 & H2 & H).
  apply (respects_run (keeps userAnalytics)) in H2; [|respects_tac].
  destruct r2 as [e|[]]; [destruct H as [-> _]|].
  { intros u old Hu. exists []. rewrite app_nil_r. by rewrite H2, H1. }
  apply bind_inv in H as (w3 & r3 & H3 & H).
  injection H3 as <- <-. simpl in H.
  unfold keeps in *.
  destruct (userAnalytics w2 !! userId) as [cur|] eqn:Hcur;
    injection H as <- _; intros u old Hu; simpl;
    rewrite lookup_insert; case_decide as Hk.
  - subst u. rewrite H2, H1, Hu in Hcur. injection Hcur as <-. by eexists.
  - exists []. rewrite app_nil_r. by rewrite H2, H1.
  - subst u. rewrite H2, H1, Hu in Hcur. done.
  - exists []. rewrite app_nil_r. by rewrite H2, H1.
Qed.

Section WebhookEffects.

Variable webhookSecret : string.
Variable constructEvent : string → string → string → string + StripeEvent.
Variable objectId : nat → string.

(** A relation that the writes to the product and analytics rows respect,
    and that holds whenever those rows are left alone, holds of every run
    of the webhook. *)
Lemma materializeGroup_respects R `{!PreOrder R} :
  (∀ w w', keeps ledgers w w' → R w w') →
  (∀ u s item, respects R (updateProductAnalytics u s item)) →
  ∀ key sid u session name email grouped g,
    respects R (materializeGroup objectId key sid u session name email
                  grouped g).
Proof.
  intros Hframe Hitem key sid u session name email grouped g.
  assert (Hk : ∀ A (c : M A), respects (keeps ledgers) c → respects R c).
  { intros A c. by apply respects_weaken. }
  unfold materializeGroup.
  apply respects_bind; try tc_solve; [apply Hk; respects_tac|].
  intros order. apply respects_bind; try tc_solve.
  { apply respects_forM_; try tc_solve. intros item. apply Hitem. }
  intros _. apply Hk. respects_tac.
Qed.

Lemma createOrder_respects R `{!PreOrder R} :
  (∀ w w', keeps ledgers w w' → R w w') →
  (∀ u s item, respects R (updateProductAnalytics u s item)) →
  ∀ req w w' resp,
    createOrder webhookSecret constructEvent objectId req w = (w', resp) →
    R w w'.
Proof.
  intros Hframe Hitem req w w' resp.
  assert (Hk : ∀ A (c : M A), respects (keeps ledgers) c → respects R c).
  { intros A c. by apply respects_weaken. }
  unfold createOrder. apply try_catch_respects; try tc_solve.
  - destruct (wr_stripe_signature req) as [[|a sig]|];
      try (apply respects_ret; tc_solve).
    apply respects_bind; try tc_solve; [apply Hk; respects_tac|].
    intros _. destruct (constructEvent _ _ _) as [message|event];
      [apply respects_ret; tc_solve|].
    apply respects_bind; try tc_solve.
    + destruct (String.eqb _ _); [|apply respects_ret; tc_solve].
      unfold paymentSucceeded.
      apply respects_bind; try tc_solve; [apply Hk; respects_tac|].
      intros [session|]; [|apply respects_ret; tc_solve].
      apply respects_bind; try tc_solve; [apply Hk; respects_tac|].
      intros user. apply respects_bind; try tc_solve.
      { unfold groupByShop. destruct (existsb _ _);
          [apply respects_throw | apply respects_ret]; tc_solve. }
      intros grouped. apply respects_bind; try tc_solve.
      * apply respects_forM_; try tc_solve. intros g.
        by apply materializeGroup_respects.
      * intros _. apply respects_ret; tc_solve.
    + intros [r|]; apply Hk; respects_tac.
  - intros e. apply Hk. respects_tac.
Qed.

Lemma ledgers_conserved w w' : keeps ledgers w w' → stock_conserved w w'.
Proof. intros Hk j. unfold keeps in Hk. by injection Hk as -> _. Qed.

(** Stock conservation.  Whatever the request and however the run ends,
    the webhook creates and removes no product row, and what it takes
    from a product's stock it adds to its sales. *)
Theorem createOrder_conserves_stock req w w' resp :
  createOrder webhookSecret constructEvent objectId req w = (w', resp) →
  ∀ i, match products w !! i, products w' !! i with
       | Some p, Some p' =>
           (p_stock p' + p_totalSales p' = p_stock p + p_totalSales p)%Z
       | None, None => True
       | _, _ => False
       end.
Proof.
  intros H i.
  assert (Hc : stock_conserved w w').
  { revert H. apply createOrder_respects; try tc_solve.
    - apply ledgers_conserved.
    - apply updateProductAnalytics_conserved. }
  specialize (Hc i).
  destruct (products w !! i), (products w' !! i); simpl in Hc;
    by try injection Hc.
Qed.

(** The action log is append-only.  Whatever the request and however the
    run ends, the webhook only extends the log of a user: what was
    recorded stays, in its order, at the head of the log. *)
Theorem createOrder_log_append_only req w w' resp u old :
  createOrder webhookSecret constructEvent objectId req w = (w', resp) →
  userAnalytics w !! u = Some old →
  ∃ more, userAnalytics w' !! u = Some (old ++ more).
Proof.
  intros H. revert u old.
  change (log_grows w w'). revert H.
  apply createOrder_respects; try tc_solve.
  - intros w0 w1 Hk u old Hu. unfold keeps in Hk. injection Hk as _ Hk.
    exists []. by rewrite app_nil_r, Hk.
  - apply updateProductAnalytics_log.
Qed.


(** *** Stock: what an acknowledged run takes *)

Lemma orderedQty_app i l1 l2 :
  orderedQty i (l1 ++ l2) = (orderedQty i l1 + orderedQty i l2)%Z.
Proof. induction l1 as [|x l1 IH]; simpl; [done|]. rewrite IH. lia. Qed.

Lemma group_push_orderedQty i acc item :
  orderedQty i (concat (group_push acc item).*2)
  = (orderedQty i (concat acc.*2) + orderedQty i [item])%Z.
Proof.
  induction acc as [|[k v] acc IH].
  - simpl. lia.
  - cbn [group_push]. destruct (String.eqb k (ci_shopId item));
      rewrite !fmap_cons; cbn [concat snd]; rewrite !orderedQty_app;
      [|rewrite IH]; cbn [orderedQty]; lia.
Qed.

Lemma orderedQty_groups_Permutation i
    (gs gs' : list (string * list CartItem)) :
  gs ≡ₚ gs' → orderedQty i (concat gs.*2) = orderedQty i (concat gs'.*2).
Proof.
  induction 1 as [|g gs gs' _ IH|g g' gs|gs1 gs2 gs3 _ IH1 _ IH2]; [done|..].
  - rewrite !fmap_cons. cbn [concat]. rewrite !orderedQty_app. by rewrite IH.
  - rewrite !fmap_cons. cbn [concat]. rewrite !orderedQty_app. lia.
  - congruence.
Qed.

Lemma shopGrouped_orderedQty i cart :
  orderedQty i (concat (shopGrouped cart).*2) = orderedQty i cart.
Proof.
  rewrite (orderedQty_groups_Permutation i _ _ (shopGrouped_Permutation cart)).
  unfold shopEntries.
  enough (H : ∀ acc, orderedQty i (concat (fold_left group_push cart acc).*2)
    = (orderedQty i (concat acc.*2) + orderedQty i cart)%Z) by (by rewrite H).
  induction cart as [|x cart IH]; intros acc; [simpl; lia|].
  change (fold_left group_push (x :: cart) acc)
    with (fold_left group_push cart (group_push acc x)).
  rewrite IH, group_push_orderedQty. simpl. lia.
Qed.

Lemma shopGrouped_covers cart item :
  item ∈ cart → ∃ g, g ∈ shopGrouped cart ∧ item ∈ g.2.
Proof.
  intros Hin.
  assert (Hk : ci_shopId item ∈ (shopGrouped cart).*1).
  { apply shopGrouped_keys, list_elem_of_fmap. by exists item. }
  apply list_elem_of_fmap in Hk as ([k v] & Hk & Hg). simpl in Hk. subst k.
  exists (ci_shopId item, v). split; [done|]. simpl.
  apply shopGrouped_entry in Hg as [-> _]. by apply list_elem_of_filter.
Qed.

Lemma products_update_ok productId qty w w' :
  products_update productId qty w = (w', inr tt) →
  ∃ p, products w !! productId = Some p ∧
    products w' = <[productId :=
      mkProduct (p_stock p - qty) (p_totalSales p + qty)]> (products w).
Proof.
  unfold products_update, call, gets, modify, throw, mbind, M_bind. simpl.
  destruct (products w !! productId) as [p|] eqn:Hp; intros [= <-].
  by exists p.
Qed.

Lemma updateProductAnalytics_ok userId shopId item w w' :
  updateProductAnalytics userId shopId item w = (w', inr tt) →
  ∃ p, products w !! ci_id item = Some p ∧
    products w' = <[ci_id item :=
      mkProduct (p_stock p - ci_quantity item)
        (p_totalSales p + ci_quantity item)]> (products w).
Proof.
  unfold updateProductAnalytics. intros H.
  apply bind_inv_ok in H as (w1 & [] & H1 & H).
  apply products_update_ok in H1 as (p & Hp & H1).
  apply (respects_run (keeps products)) in H; [|respects_tac].
  exists p. split; [done|]. unfold keeps in H. by rewrite H.
Qed.

(** What a loop over the lines of an order does to the rows of the
    products, when it runs to its end. *)
Lemma lines_stock userId shopId items w w' :
  forM_ items (updateProductAnalytics userId shopId) w = (w', inr tt) →
  Forall (λ item, is_Some (products w !! ci_id item)) items ∧
  ∀ i p, products w !! i = Some p →
    products w' !! i = Some
      (mkProduct (p_stock p - orderedQty i items)
         (p_totalSales p + orderedQty i items)).
Proof.
  revert w. induction items as [|x items IH]; intros w H; simpl in *.
  - injection H as <-. split; [done|]. intros i [s t] Hi. rewrite Hi.
    simpl. do 2 f_equal; lia.
  - apply bind_inv_ok in H as (w1 & [] & Hx & H).
    apply updateProductAnalytics_ok in Hx as (p0 & Hp0 & Hw1).
    destruct (IH _ H) as [Hrows Heff]. split.
    + apply Forall_cons. split; [by eexists|].
      eapply Forall_impl; [exact Hrows|]. intros item. simpl.
      rewrite Hw1, lookup_insert_is_Some.
      intros [Heq|[_ ?]]; [rewrite <- Heq; by eexists | done].
    + intros i p Hi.
      destruct (String.eqb_spec (ci_id x) i) as [Heq|Hne].
      * subst i. rewrite Hi in Hp0. injection Hp0 as <-.
        rewrite (Heff (ci_id x) _ (eq_trans (f_equal (λ m, m !! ci_id x) Hw1)
                   (lookup_insert_eq _ _ _))).
        simpl. do 2 f_equal; lia.
      * rewrite (Heff i p); [do 2 f_equal; lia|].
        by rewrite Hw1, lookup_insert_ne.
Qed.

Lemma materializeGroup_stock sessionKey sessionId userId session name email
    grouped g w w' :
  materializeGroup objectId sessionKey sessionId userId session name email
    grouped g w = (w', inr tt) →
  Forall (λ item, is_Some (products w !! ci_id item)) g.2 ∧
  ∀ i p, products w !! i = Some p →
    products w' !! i = Some
      (mkProduct (p_stock p - orderedQty i g.2)
         (p_totalSales p + orderedQty i g.2)).
Proof.
  unfold materializeGroup. intros H.
  apply bind_inv_ok in H as (w1 & order & H1 & H).
  apply (respects_run (keeps products)) in H1; [|respects_tac].
  apply bind_inv_ok in H as (w2 & [] & H2 & H).
  apply lines_stock in H2.
  apply (respects_run (keeps products)) in H; [|respects_tac].
  unfold keeps in *. rewrite H1 in H2. rewrite H. exact H2.
Qed.

Lemma groups_stock sessionKey sessionId userId session name email grouped
    gs w w' :
  forM_ gs (materializeGroup objectId sessionKey sessionId userId session
              name email grouped) w = (w', inr tt) →
  Forall (λ item, is_Some (products w !! ci_id item)) (concat gs.*2) ∧
  ∀ i p, products w !! i = Some p →
    products w' !! i = Some
      (mkProduct (p_stock p - orderedQty i (concat gs.*2))
         (p_totalSales p + orderedQty i (concat gs.*2))).
Proof.
  revert w. induction gs as [|g gs IH]; intros w H; simpl in *.
  - injection H as <-. split; [done|]. intros i [s t] Hi. rewrite Hi.
    simpl. do 2 f_equal; lia.
  - apply bind_inv_ok in H as (w1 & [] & Hg & H).
    assert (Hc : stock_conserved w w1).
    { revert Hg. apply materializeGroup_respects; try tc_solve.
      - apply ledgers_conserved.
      - apply updateProductAnalytics_conserved. }
    apply materializeGroup_stock in Hg as [Hrows1 Heff1].
    destruct (IH _ H) as [Hrows Heff]. split.
    + apply Forall_app. split; [done|].
      eapply Forall_impl; [exact Hrows|]. intros item. simpl.
      by rewrite (stock_conserved_is_Some _ _ _ Hc).
    + intros i p Hi. rewrite (Heff i _ (Heff1 i p Hi)). simpl.
      rewrite orderedQty_app. unfold fmap. do 2 f_equal; lia.
Qed.

(** Exact decrement.  An acknowledged materialization takes from the
    stock of every product the quantity the cart orders of it, summed
    over the cart's lines, and adds as much to the product's sales. *)
Theorem createOrder_decrements_stock req sig event session w w1 i p :
  wr_stripe_signature req = Some sig → sig ≠ "" →
  constructEvent (wr_rawBody req) sig webhookSecret = inr event →
  ev_type event = "payment_intent.succeeded" →
  redis w !! ("payment-session:" +:+ ev_sessionId event) = Some session →
  createOrder webhookSecret constructEvent objectId req w
    = (w1, Json 200 BReceived) →
  products w !! i = Some p →
  products w1 !! i = Some
    (mkProduct (p_stock p - orderedQty i (s_cart session))
       (p_totalSales p + orderedQty i (s_cart session))).
Proof.
  intros Hsig Hne Hce Hty Hs H Hp.
  destruct (createOrder_materialized _ _ _ _ _ _ _ _ _ Hsig Hne Hce Hty Hs H)
    as (wb & Hloop & -> & _).
  apply groups_stock in Hloop as [_ Heff]. simpl.
  rewrite <- (shopGrouped_orderedQty i (s_cart session)). by apply Heff.
Qed.

(** How a run on a stored session can end. *)
Lemma createOrder_found_outcome req sig event session w w1 resp :
  wr_stripe_signature req = Some sig → sig ≠ "" →
  constructEvent (wr_rawBody req) sig webhookSecret = inr event →
  ev_type event = "payment_intent.succeeded" →
  redis w !! ("payment-session:" +:+ ev_sessionId event) = Some session →
  createOrder webhookSecret constructEvent objectId req w = (w1, resp) →
  resp = Json 200 BReceived ∨ ∃ e, resp = Next e.
Proof.
  intros Hsig Hne Hce Hty Hs H.
  rewrite (createOrder_verified _ _ _ _ _ _ _ Hsig Hne Hce), Hty in H.
  simpl String.eqb in H. unfold try_catch in H.
  match type of H with
  | match ?b with _ => _ end = _ => destruct b as [wx [e|r]] eqn:Hb
  end.
  - right. exists e. by injection H as _ <-.
  - left. injection H as _ <-.
    apply bind_inv_ok in Hb as (wa & [] & Ha & Hb).
    injection Ha as <-.
    apply bind_inv_ok in Hb as (wb & early & Hp & Hb).
    unfold paymentSucceeded in Hp.
    apply bind_inv_ok in Hp as (wc & data & Hg & Hp).
    injection Hg as <- <-. simpl in Hp. rewrite Hs in Hp.
    apply bind_inv_ok in Hp as (wd & user & Hu & Hp).
    apply bind_inv_ok in Hp as (wg & grouped & Hgr & Hp).
    apply bind_inv_ok in Hp as (we & [] & Hf & Hp).
    injection Hp as <- <-. by injection Hb as _ <-.
Qed.

(** The webhook acknowledges a stored session exactly when every product
    of its cart has a row in the catalog and no line's shop id is a name
    that a plain object inherits; otherwise the run stops, at the grouping
    or at the first product that has no row, and the error goes to
    [next]. *)
Theorem createOrder_acknowledges_iff req sig event session w w1 resp :
  wr_stripe_signature req = Some sig → sig ≠ "" →
  constructEvent (wr_rawBody req) sig webhookSecret = inr event →
  ev_type event = "payment_intent.succeeded" →
  redis w !! ("payment-session:" +:+ ev_sessionId event) = Some session →
  createOrder webhookSecret constructEvent objectId req w = (w1, resp) →
  (resp = Json 200 BReceived ↔
     in_catalog (ci_id <$> s_cart session) w ∧
     Forall (λ line, ci_shopId line ∉ objectPrototypeKeys)
       (s_cart session)) ∧
  (resp = Json 200 BReceived ∨ ∃ e, resp = Next e).
Proof.
  intros Hsig Hne Hce Hty Hs H.
  split; [|by eapply createOrder_found_outcome]. split.
  - intros ->.
    destruct (createOrder_materialized _ _ _ _ _ _ _ _ _ Hsig Hne Hce Hty Hs H)
      as (wb & Hloop & _ & Hproto).
    split; [|exact Hproto].
    apply groups_stock in Hloop as [Hrows _]. simpl in Hrows.
    rewrite Forall_forall in Hrows.
    unfold in_catalog. rewrite Forall_fmap. apply Forall_forall.
    intros item Hin. simpl.
    destruct (shopGrouped_covers _ _ Hin) as (g & Hg & Hitem).
    apply Hrows. apply list_elem_of_In, in_concat.
    exists g.2. split; apply list_elem_of_In; [|done].
    apply list_elem_of_fmap. by exists g.
  - intros [Hcat Hproto].
    destruct (createOrder_succeeds webhookSecret constructEvent objectId
                _ _ _ _ _ Hsig Hne Hce Hty Hs Hcat Hproto)
      as [w1' Hrun].
    rewrite Hrun in H. by injection H as _ <-.
Qed.

(** A session that has been materialized can no longer be verified. *)
Theorem materialized_session_is_gone req sig event session w w1 :
  wr_stripe_signature req = Some sig → sig ≠ "" →
  constructEvent (wr_rawBody req) sig webhookSecret = inr event →
  ev_type event = "payment_intent.succeeded" →
  redis w !! ("payment-session:" +:+ ev_sessionId event) = Some session →
  s_cart session ≠ [] → ev_sessionId event ≠ "" →
  createOrder webhookSecret constructEvent objectId req w
    = (w1, Json 200 BReceived) →
  verifyPaymentSession (ev_sessionId event) w1 =
    (with_calls (calls w1 ++
       [RedisGet ("payment-session:" +:+ ev_sessionId event)]) w1,
     SessionOther (Json 404 (BError "Session not found or expired."))).
Proof.
  intros Hsig Hne Hce Hty Hs Hcart Hid H.
  destruct (createOrder_materialized _ _ _ _ _ _ _ _ _ Hsig Hne Hce Hty Hs H)
    as (wb & Hloop & -> & _).
  apply groups_delete in Hloop; [|by apply shopGrouped_nonempty].
  unfold verifyPaymentSession. apply String.eqb_neq in Hid. rewrite Hid.
  unfold redis_get, call, gets, modify, mbind, M_bind, mret, M_ret.
  simpl. by rewrite Hloop.
Qed.

(** *** Notifications: how many an acknowledged run creates *)

Abbreviation desk := (λ w : World, (notifications w, shops w)).

Lemma notify_each_count {A} (l : list A) (f : A → Notification) w w' :
  forM_ l (λ x, notifications_create (f x)) w = (w', inr tt) →
  desk w' = (notifications w ++ (f <$> l), shops w).
Proof.
  revert w. induction l as [|x l IH]; intros w H; simpl in *.
  - injection H as <-. by rewrite app_nil_r.
  - apply bind_inv_ok in H as (w1 & [] & Hx & H).
    injection Hx as <-. apply IH in H. rewrite H. simpl.
    by rewrite <- app_assoc.
Qed.

Lemma findMany_all_known (ids : list string) (m : gmap string Shop) :
  Forall (λ i, is_Some (m !! i)) ids →
  length (omap (λ i, (λ s, (i, s)) <$> m !! i) ids) = length ids.
Proof.
  induction 1 as [|i ids [s Hs] _ IH]; simpl; [done|].
  rewrite Hs. simpl. f_equal. exact IH.
Qed.

Lemma materializeGroup_notifications sessionKey sessionId userId session
    name email grouped g w w' :
  materializeGroup objectId sessionKey sessionId userId session name email
    grouped g w = (w', inr tt) →
  shops w' = shops w ∧
  length (notifications w') =
    S (length (notifications w)
       + length (omap (λ i, (λ s, (i, s)) <$> shops w !! i) grouped.*1)).
Proof.
  unfold materializeGroup. intros H.
  apply bind_inv_ok in H as (w1 & order & H1 & H).
  apply (respects_run (keeps desk)) in H1; [|respects_tac].
  apply bind_inv_ok in H as (w2 & [] & H2 & H).
  apply (respects_run (keeps desk)) in H2; [|respects_tac].
  apply bind_inv_ok in H as (w3 & [] & H3 & H).
  apply (respects_run (keeps desk)) in H3; [|respects_tac].
  apply bind_inv_ok in H as (w4 & sellerShops & H4 & H).
  assert (H4' : keeps desk w3 w4).
  { apply (respects_run (keeps desk) _ _ _ _ H4). respects_tac. }
  injection H4 as _ <-.
  apply bind_inv_ok in H as (w5 & [] & H5 & H).
  apply notify_each_count in H5.
  apply bind_inv_ok in H as (w6 & [] & H6 & H).
  injection H6 as <-.
  apply (respects_run (keeps desk)) in H; [|respects_tac].
  unfold keeps in *. simpl in H.
  injection H as Hn Hs. injection H5 as Hn5 Hs5.
  injection H4' as Hn4 Hs4. injection H3 as Hn3 Hs3.
  injection H2 as Hn2 Hs2. injection H1 as Hn1 Hs1.
  split; [congruence|].
  rewrite Hn, Hn5, Hn4, Hn3, Hn2, Hn1, !length_app, length_fmap. simpl.
  replace (shops w3) with (shops w) by congruence. lia.
Qed.

Lemma groups_notifications sessionKey sessionId userId session name email
    grouped gs w w' :
  forM_ gs (materializeGroup objectId sessionKey sessionId userId session
              name email grouped) w = (w', inr tt) →
  length (notifications w') =
    (length (notifications w)
     + length gs
       * S (length (omap (λ i, (λ s, (i, s)) <$> shops w !! i)
                      grouped.*1)))%nat.
Proof.
  revert w. induction gs as [|g gs IH]; intros w H; simpl in *.
  - injection H as <-. lia.
  - apply bind_inv_ok in H as (w1 & [] & Hg & H).
    apply materializeGroup_notifications in Hg as [Hs Hn].
    apply IH in H. rewrite H, Hn, Hs. lia.
Qed.

(** Fan-out of notifications.  When every shop of the cart has a row, an
    acknowledged materialization of a cart over n shops creates n (n + 1)
    notifications: in each of its n iterations, one for the seller of
    every shop of the cart and one for the administrator. *)
Theorem createOrder_notifications req sig event session w w1 :
  wr_stripe_signature req = Some sig → sig ≠ "" →
  constructEvent (wr_rawBody req) sig webhookSecret = inr event →
  ev_type event = "payment_intent.succeeded" →
  redis w !! ("payment-session:" +:+ ev_sessionId event) = Some session →
  Forall (λ item, is_Some (shops w !! ci_shopId item)) (s_cart session) →
  createOrder webhookSecret constructEvent objectId req w
    = (w1, Json 200 BReceived) →
  let n := size (list_to_set (ci_shopId <$> s_cart session) : gset string) in
  length (notifications w1) = (length (notifications w) + n * (n + 1))%nat.
Proof.
  intros Hsig Hne Hce Hty Hs Hshops H n.
  destruct (createOrder_materialized _ _ _ _ _ _ _ _ _ Hsig Hne Hce Hty Hs H)
    as (wb & Hloop & -> & _).
  apply groups_notifications in Hloop. simpl in Hloop |- *.
  rewrite Hloop, findMany_all_known.
  - rewrite length_fmap, shopGrouped_length. fold n. lia.
  - apply Forall_forall. intros k Hk.
    apply shopGrouped_keys, list_elem_of_fmap in Hk as (item & -> & Hin).
    rewrite Forall_forall in Hshops. by apply Hshops.
Qed.

(** *** A product without a row *)

Lemma fold_group_push_head l k x v acc :
  ∃ v' acc', fold_left group_push l ((k, x :: v) :: acc)
             = (k, x :: v') :: acc'.
Proof.
  revert v acc. induction l as [|i l IH]; intros v acc; simpl; [by eexists _, _|].
  destruct (String.eqb k (ci_shopId i)); apply IH.
Qed.

Lemma shopEntries_head item rest :
  ∃ items gs,
    shopEntries (item :: rest) = (ci_shopId item, item :: items) :: gs.
Proof. unfold shopEntries. simpl. apply fold_group_push_head. Qed.

(** Where no shop id is an array index, the groups are visited in the
    order in which the cart first names their shops. *)
Lemma shopGrouped_no_index cart :
  Forall (λ line, arrayIndex (ci_shopId line) = None) cart →
  shopGrouped cart = shopEntries cart.
Proof.
  intros Hidx. apply ownKeysOrder_no_index, Forall_forall.
  intros [k v] Hin.
  assert (Hk : k ∈ (shopEntries cart).*1)
    by (apply list_elem_of_fmap; by exists (k, v)).
  apply shopEntries_keys, list_elem_of_fmap in Hk as (line & -> & Hline).
  rewrite Forall_forall in Hidx. by apply Hidx.
Qed.

(** Orders are not undone.  Let no shop id of the cart be an array index
    or a name that a plain object inherits, so that the group of the
    cart's first line is the first one visited.  When the product of that
    line has no row in the catalog, the webhook has already stored the
    order of the line's shop when the update of the product throws: the
    error goes to [next], the order stays, and the session stays in the
    store, nothing else having been written but the log. *)
Theorem createOrder_missing_first_product req sig event session item rest w :
  wr_stripe_signature req = Some sig → sig ≠ "" →
  constructEvent (wr_rawBody req) sig webhookSecret = inr event →
  ev_type event = "payment_intent.succeeded" →
  redis w !! ("payment-session:" +:+ ev_sessionId event) = Some session →
  s_cart session = item :: rest →
  Forall (λ line, arrayIndex (ci_shopId line) = None) (s_cart session) →
  Forall (λ line, ci_shopId line ∉ objectPrototypeKeys) (s_cart session) →
  products w !! ci_id item = None →
  ∃ w1 o,
    createOrder webhookSecret constructEvent objectId req w
      = (w1, Next (PrismaError "Record to update not found.")) ∧
    orders w1 = orders w ++ [o] ∧
    o_shopId o = ci_shopId item ∧ o_status o = "Paid" ∧
    o_userId o = ev_userId event ∧
    redis w1 = redis w ∧ products w1 = products w ∧
    emails w1 = emails w ∧ notifications w1 = notifications w.
Proof.
  intros Hsig Hne Hce Hty Hs Hcart Hidx Hproto Hmissing.
  rewrite (createOrder_verified _ _ _ _ _ _ _ Hsig Hne Hce), Hty.
  destruct (shopEntries_head item rest) as (items & gs & Hg).
  unfold try_catch, paymentSucceeded, redis_get, users_findUnique, call,
    gets, modify, mbind, M_bind, mret, M_ret.
  simpl. rewrite Hs, (groupByShop_ok _ Hproto), (shopGrouped_no_index _ Hidx).
  rewrite Hcart, Hg. unfold mret, M_ret. simpl.
  do 3 (unfold materializeGroup, orders_create, updateProductAnalytics,
    products_update, sendLog, call, gets, modify, throw, mbind, M_bind,
    mret, M_ret; simpl).
  rewrite Hmissing. simpl.
  eexists _, _. split; [reflexivity|]. simpl. done.
Qed.
End WebhookEffects.

(** ** Further properties of the payment session *)

#[export] Instance keeps_others_preorder userId newKey :
  PreOrder (keeps_others userId newKey).
Proof.
  split; [by intros w k s H _ _|].
  intros w1 w2 w3 H12 H23 k s H Hu Hk. apply H23; [|done|done].
  by apply H12.
Qed.

(** The key a session is stored under is never the key it is read
    under. *)
Lemma written_key_not_read uuid :
  "payment-session: " +:+ uuid ≠ "payment-session:" +:+ uuid.
Proof.
  simpl. intros [= H]. apply (f_equal String.length) in H. simpl in H. lia.
Qed.

Lemma scanSessions_found_is_200 userId normalizedCart keys w w' r :
  scanSessions userId normalizedCart keys w = (w', inr (Some r)) →
  ∃ sessionId, r = Json 200 (BSessionId sessionId).
Proof.
  revert w. induction keys as [|key keys IH]; intros w H; simpl in H;
    [done|].
  apply bind_inv_ok in H as (w1 & data & _ & H).
  destruct data as [session|]; [|by eapply IH].
  destruct (String.eqb _ _); [|by eapply IH].
  apply bind_inv_ok in H as (w2 & existingCart & _ & H).
  case_bool_decide.
  - injection H as _ <-. by eexists.
  - apply bind_inv_ok in H as (w3 & [] & _ & H). by eapply IH.
Qed.

Lemma scanSessions_respects R `{!PreOrder R} userId normalizedCart keys :
  (∀ w w', keeps (λ w, (redis w, shops w)) w w' → R w w') →
  (∀ key, respects R (redis_del key)) →
  respects R (scanSessions userId normalizedCart keys).
Proof.
  intros Hframe Hdel.
  assert (Hk : ∀ A (c : M A),
    respects (keeps (λ w, (redis w, shops w))) c → respects R c).
  { intros A c. by apply respects_weaken. }
  induction keys as [|key keys IH]; simpl.
  - apply respects_ret; tc_solve.
  - apply respects_bind; try tc_solve; [apply Hk; respects_tac|].
    intros [session|]; [|exact IH].
    destruct (String.eqb _ _); [|exact IH].
    apply respects_bind; try tc_solve.
    { apply Hk. unfold normalizeCart, sort_localCompare. respects_tac. }
    intros existingCart. case_bool_decide.
    + apply respects_ret; tc_solve.
    + apply respects_bind; try tc_solve; [apply Hdel|].
      intros _. exact IH.
Qed.

(** Only the caller's sessions are evicted. *)
Lemma scanSessions_keeps_others userId newKey normalizedCart keys :
  respects (keeps_others userId newKey)
    (scanSessions userId normalizedCart keys).
Proof.
  induction keys as [|key keys IH]; simpl.
  - apply respects_ret; tc_solve.
  - intros w w' r H.
    apply bind_inv in H as (w1 & r1 & H1 & H).
    injection H1 as <- <-.
    destruct (redis w !! key) as [session|] eqn:Hkey; simpl in H;
      [|by apply (IH _ _ _ H)].
    destruct (String.eqb_spec (s_userId session) userId) as [Hu|Hu];
      [|by apply (IH _ _ _ H)].
    apply bind_inv in H as (w2 & r2 & H2 & H).
    assert (Hw2 : w2 = with_calls (calls w ++ [RedisGet key]) w).
    { unfold normalizeCart, sort_localCompare in H2.
      destruct (normItem <$> s_cart session) as [|? [|? ?]];
        by injection H2 as <- _. }
    assert (Hsame : ∀ c, keeps_others userId newKey w (with_calls c w))
      by (intros c k s Hk _ _; exact Hk).
    subst w2. destruct r2 as [e|existingCart];
      [destruct H as [-> _]; apply Hsame|].
    case_bool_decide; [injection H as <- _; apply Hsame|].
    apply bind_inv in H as (w3 & r3 & H3 & H).
    injection H3 as <- <-.
    intros k s Hk Hs Hnew. apply (IH _ _ _ H); try done. simpl.
    rewrite lookup_delete_ne; [done|]. intros <-. congruence.
Qed.

(** The frame of [createPaymentSession]: a relation that its reads
    respect, its scan respects and its one write respects holds of every
    run. *)
Lemma createPaymentSession_respects R `{!PreOrder R} uuid req :
  (∀ w w', keeps (λ w, (redis w, shops w)) w w' → R w w') →
  (∀ normalizedCart keys,
     respects R (scanSessions (sr_userId req) normalizedCart keys)) →
  (∀ v, respects R (redis_setex ("payment-session: " +:+ uuid) 600 v)) →
  ∀ w w' resp, createPaymentSession uuid req w = (w', resp) → R w w'.
Proof.
  intros Hframe Hscan Hset w w' resp.
  assert (Hk : ∀ A (c : M A),
    respects (keeps (λ w, (redis w, shops w))) c → respects R c).
  { intros A c. by apply respects_weaken. }
  unfold createPaymentSession. apply try_catch_respects; try tc_solve.
  - destruct (sr_cart req) as [[|a cart]|];
      try (apply respects_ret; tc_solve).
    apply respects_bind; try tc_solve.
    { apply Hk. unfold normalizeCart, sort_localCompare. respects_tac. }
    intros normalizedCart. apply respects_bind; try tc_solve.
    { apply Hk. respects_tac. }
    intros keys. apply respects_bind; try tc_solve; [apply Hscan|].
    intros [r|]; [apply respects_ret; tc_solve|].
    apply respects_bind; try tc_solve; [apply Hk; respects_tac|].
    intros shops. apply respects_bind; try tc_solve; [apply Hset|].
    intros _. apply respects_ret; tc_solve.
  - intros e. apply respects_ret; tc_solve.
Qed.

(** Isolation of owners.  Whatever the cart and however the call ends,
    [createPaymentSession] leaves the sessions of every other owner in
    the store as they were; only the key it writes, were it taken, is
    overwritten. *)
Theorem createPaymentSession_spares_others uuid req w w' resp k s :
  createPaymentSession uuid req w = (w', resp) →
  redis w !! k = Some s → s_userId s ≠ sr_userId req →
  k ≠ "payment-session: " +:+ uuid →
  redis w' !! k = Some s.
Proof.
  intros H. revert k s.
  change (keeps_others (sr_userId req) ("payment-session: " +:+ uuid) w w').
  revert H. apply createPaymentSession_respects; try tc_solve.
  - intros w0 w1 Hk k s Hs _ _. unfold keeps in Hk.
    injection Hk as Hk _. by rewrite Hk.
  - intros. apply scanSessions_keeps_others.
  - intros v w0 w1 r [= <- _] k s Hs _ Hk. simpl.
    by rewrite lookup_insert_ne.
Qed.

(** A session is created for a cart of one line only, and this is what
    is stored.  A reply 201 means the cart had exactly one line; the id
    returned is the fresh one, and the session stored, under the key with
    the space, holds the owner, that line, its quantity times its price
    as total, the coupon as posted and the seller of the line's shop, the
    numbers being what their JSON text gives back. *)
Theorem created_session_contents uuid req w w' body :
  createPaymentSession uuid req w = (w', Json 201 body) →
  ∃ item session,
    sr_cart req = Some [item] ∧
    body = BSessionId (Some uuid) ∧
    redis w' !! ("payment-session: " +:+ uuid) = Some session ∧
    s_userId session = sr_userId req ∧
    s_cart session = [JSON_item item] ∧
    s_totalAmount session =
      JSON_number
        (0 + ofZ (ci_quantity item) * ToNumber (ci_sale_price item))%float ∧
    s_coupon session = JSON_coupon <$> sr_coupon req ∧
    s_shippingAddressId session = or_null (sr_selectedAddressId req) ∧
    s_sellers session =
      match shops w !! ci_shopId item with
      | Some shop =>
          [mkSellerData (ci_shopId item) (sh_sellerId shop) (sh_stripeId shop)]
      | None => []
      end.
Proof.
  unfold createPaymentSession, try_catch.
  destruct (sr_cart req) as [[|item [|b cart]]|] eqn:Hcart; try done.
  match goal with
  | |- (match ?body w with _ => _ end) = _ → _ =>
      destruct (body w) as [w1 [e|r]] eqn:Hrun
  end; [done|].
  intros [= -> ->].
  apply bind_inv_ok in Hrun as (w2 & normalizedCart & H2 & Hrun).
  injection H2 as <- <-.
  apply bind_inv_ok in Hrun as (w3 & keys & H3 & Hrun).
  apply (respects_run (keeps shops)) in H3; [|respects_tac].
  apply bind_inv_ok in Hrun as (w4 & found & H4 & Hrun).
  destruct found as [r|].
  { apply scanSessions_found_is_200 in H4 as [sid ->]. done. }
  apply (respects_run (keeps shops)) in H4.
  2:{ apply scanSessions_respects; try tc_solve.
      - intros w0 w5 Hk. unfold keeps in *. by injection Hk as _ ->.
      - intros key. respects_tac. }
  apply bind_inv_ok in Hrun as (w5 & shops & H5 & Hrun).
  injection H5 as <- <-.
  apply bind_inv_ok in Hrun as (w6 & [] & H6 & Hrun).
  injection H6 as <-. injection Hrun as <- <-.
  exists item. eexists. split; [done|]. split; [done|].
  split; [simpl; apply lookup_insert_eq|]. simpl.
  repeat split; try done.
  unfold keeps in *. rewrite H4, H3.
  by destruct (_ !! ci_shopId item).
Qed.

(** The store gains nothing under a key it did not have, the key written
    apart. *)
Lemma createPaymentSession_stays_absent uuid req w w' resp k :
  createPaymentSession uuid req w = (w', resp) →
  k ≠ "payment-session: " +:+ uuid →
  redis w !! k = None → redis w' !! k = None.
Proof.
  intros H Hk. change (stays_absent k w w'). revert H.
  apply createPaymentSession_respects; try tc_solve.
  - intros w0 w1 Hkeep Hnone. unfold keeps in Hkeep.
    injection Hkeep as Hkeep _. by rewrite Hkeep.
  - intros. apply scanSessions_respects; try tc_solve.
    + intros w0 w1 Hkeep Hnone. unfold keeps in Hkeep.
      injection Hkeep as Hkeep _. by rewrite Hkeep.
    + intros key. apply redis_del_stays_absent.
  - intros v w0 w1 r [= <- _] Hnone. simpl.
    by rewrite lookup_insert_ne.
Qed.

(** [split(":")] on a key whose id has no colon. *)
Lemma split_colon_key rest :
  split_colon "" rest = [rest] →
  split_colon "" ("payment-session:" +:+ rest) !! 1%nat = Some rest.
Proof. intros H. simpl. change ("" +:+ rest) with rest. by rewrite H. Qed.

(** The scan when the owner has one session and its cart is the one
    posted: the keys are read one after the other up to that session's,
    and nothing else is called. *)
Lemma scanSessions_reuse userId normalizedCart k s keys w :
  redis w !! k = Some s → s_userId s = userId →
  normItem <$> s_cart s = normalizedCart → length normalizedCart = 1%nat →
  (∀ k' s', redis w !! k' = Some s' → s_userId s' = userId → k' = k) →
  k ∈ keys →
  ∃ w' before after,
    scanSessions userId normalizedCart keys w
      = (w', inr (Some (Json 200 (BSessionId (split_colon "" k !! 1%nat)))))
    ∧ data w' = data w
    ∧ keys = before ++ k :: after
    ∧ calls w' = calls w ++ (RedisGet <$> before ++ [k]).
Proof.
  intros Hk Hu Hcart Hone Honly Hin. revert w Hk Honly.
  induction keys as [|key keys IH]; intros w Hk Honly;
    [by apply elem_of_nil in Hin|].
  simpl. unfold redis_get at 1, call, gets, modify, mbind, M_bind. simpl.
  destruct (decide (key = k)) as [->|Hne].
  - rewrite Hk. apply String.eqb_eq in Hu. rewrite Hu.
    unfold normalizeCart, sort_localCompare. rewrite Hcart.
    destruct normalizedCart as [|x [|y l]]; try done. simpl.
    rewrite bool_decide_eq_true_2 by done.
    by eexists _, [], keys.
  - apply elem_of_cons in Hin as [->|Hin]; [done|].
    assert (Hnext : ∃ w' before after,
      scanSessions userId normalizedCart keys
        (with_calls (calls w ++ [RedisGet key]) w)
        = (w', inr (Some (Json 200
                      (BSessionId (split_colon "" k !! 1%nat)))))
      ∧ data w' = data w
      ∧ key :: keys = before ++ k :: after
      ∧ calls w' = calls w ++ (RedisGet <$> before ++ [k])).
    { destruct (IH Hin (with_calls (calls w ++ [RedisGet key]) w) Hk Honly)
        as (w' & before & after & Hrun & Hdata & -> & Hcalls).
      exists w', (key :: before), after. repeat split; try done.
      rewrite Hcalls. simpl. by rewrite <- app_assoc. }
    destruct (redis w !! key) as [s0|] eqn:Hkey; [|exact Hnext].
    destruct (String.eqb_spec (s_userId s0) userId) as [Hu0|Hu0];
      [|exact Hnext].
    destruct Hne. by eapply Honly.
Qed.

(** Reuse.  When the owner's only session holds the cart that is posted,
    a cart of one line, the call writes nothing and calls no catalog: it
    lists the session keys, reads them up to that session's, and answers
    200 with what follows the colon in that key; under that id the
    session can be verified. *)
Theorem identical_cart_reuses_session uuid req item rest s w :
  sr_cart req = Some [item] →
  split_colon "" rest = [rest] → rest ≠ "" →
  redis w !! ("payment-session:" +:+ rest) = Some s →
  s_userId s = sr_userId req →
  normItem <$> s_cart s = [normItem item] →
  (∀ k' s', redis w !! k' = Some s' → s_userId s' = sr_userId req →
     k' = "payment-session:" +:+ rest) →
  ∃ w' before,
    createPaymentSession uuid req w
      = (w', Json 200 (BSessionId (Some rest))) ∧
    data w' = data w ∧
    calls w' = calls w ++
      RedisKeys "payment-session:*"
        :: (RedisGet <$> before ++ ["payment-session:" +:+ rest]) ∧
    (verifyPaymentSession rest w').2 = SessionFound 200 s.
Proof.
  intros Hcart Hrest Hne Hk Hu Hs Honly.
  unfold createPaymentSession, try_catch. rewrite Hcart.
  unfold normalizeCart, sort_localCompare, redis_keys, call, gets, modify,
    mbind, M_bind, mret, M_ret. simpl.
  match goal with
  | |- context [scanSessions _ _ ?keys ?w0] =>
      destruct (scanSessions_reuse (sr_userId req) [normItem item]
                  ("payment-session:" +:+ rest) s keys w0)
        as (w' & before & after & Hrun & Hdata & _ & Hcalls); try done
  end.
  { apply list_elem_of_filter. split.
    - simpl. change ("" +:+ rest) with rest. by destruct rest.
    - apply list_elem_of_fmap. exists ("payment-session:" +:+ rest, s).
      split; [done|]. by apply elem_of_map_to_list. }
  rewrite Hrun, (split_colon_key _ Hrest). exists w', before.
  split; [done|]. split; [exact Hdata|]. split.
  { rewrite Hcalls. simpl. by rewrite <- app_assoc. }
  unfold verifyPaymentSession. apply String.eqb_neq in Hne. rewrite Hne.
  unfold redis_get, call, gets, modify, mbind, M_bind, mret, M_ret. simpl.
  assert (Hredis : redis w' = redis w)
    by exact (f_equal redis Hdata).
  by rewrite Hredis, Hk.
Qed.

Section FreshSession.

Variable webhookSecret : string.
Variable constructEvent : string → string → string → string + StripeEvent.
Variable objectId : nat → string.

(** A fresh session cannot be reached under its id.  The session is
    written under "payment-session: " and the id, with a space, and read
    under "payment-session:" and the id, without: unless the store held
    that second key already, the id that [createPaymentSession] returns
    is answered 404 by [verifyPaymentSession], and a succeeded payment
    that carries it is skipped by the webhook, which creates no order. *)
Theorem fresh_session_is_unreachable uuid sreq w w' resp req sig event :
  createPaymentSession uuid sreq w = (w', resp) →
  uuid ≠ "" →
  redis w !! ("payment-session:" +:+ uuid) = None →
  wr_stripe_signature req = Some sig → sig ≠ "" →
  constructEvent (wr_rawBody req) sig webhookSecret = inr event →
  ev_type event = "payment_intent.succeeded" →
  ev_sessionId event = uuid →
  (verifyPaymentSession uuid w').2
    = SessionOther (Json 404 (BError "Session not found or expired.")) ∧
  ∃ w'',
    createOrder webhookSecret constructEvent objectId req w'
      = (w'', Send 200 "No session found, skipping order creation") ∧
    data w'' = data w'.
Proof.
  intros Hrun Hid Hnone Hsig Hne Hce Hty Hev.
  assert (Hgone : redis w' !! ("payment-session:" +:+ uuid) = None).
  { eapply createPaymentSession_stays_absent; [exact Hrun| |exact Hnone].
    intros E. by apply (written_key_not_read uuid). }
  split.
  - unfold verifyPaymentSession. apply String.eqb_neq in Hid. rewrite Hid.
    unfold redis_get, call, gets, modify, mbind, M_bind, mret, M_ret.
    simpl. by rewrite Hgone.
  - subst uuid. eexists. split; [by apply (createOrder_no_session _ _ _ _ sig)|].
    done.
Qed.

End FreshSession.

(** ** Further properties of the coupon check *)

Lemma find_no_match {A} (f : A → bool) (l : list A) :
  Forall (λ x, f x = false) l → find f l = None.
Proof. induction 1 as [|x l Hx _ IH]; simpl; [done|]. by rewrite Hx. Qed.

(** A coupon that exists but is carried by no line of the cart is
    answered with [valid: false] and zero amounts; the handler writes
    nothing, not even its log line, and makes no call but the lookup. *)
Theorem coupon_without_matching_line req w discount :
  wq_couponCode req ≠ "" → wq_cart req ≠ [] →
  discounts w !! wq_couponCode req = Some discount →
  Forall (λ item, d_id discount ∉ ci_discount_codes item) (wq_cart req) →
  verifyCouponCode req w =
    (with_calls
       (calls w ++ [DbFindUnique "discount_codes" (wq_couponCode req)]) w,
     Json 200 (BCoupon false 0 (Number 0) None None
       "No matching product found in the cart for this coupon!")).
Proof.
  intros Hcode Hcart Hd Hnone. unfold verifyCouponCode.
  apply String.eqb_neq in Hcode. rewrite Hcode.
  rewrite bool_decide_eq_false_2 by done.
  unfold try_catch, discount_codes_findUnique, call, gets, modify,
    mbind, M_bind, mret, M_ret.
  simpl. rewrite Hd, find_no_match; [done|].
  eapply Forall_impl; [exact Hnone|]. intros item Hitem. simpl in *.
  apply not_true_iff_false. rewrite existsb_exists.
  intros (d & Hin & Heq). apply String.eqb_eq in Heq. subst d.
  by apply Hitem, list_elem_of_In.
Qed.

(** The amount returned stays within the line.  Printed with two
    decimals, the discount never exceeds the line's price printed the same
    way; when the line's price is a whole number of hundredths, the amount
    returned is at most that price.  The amount is so printed whenever the
    line's price and the discount before the clamp are finite and below
    10^21 in size. *)
Theorem coupon_amount_within_line req w discount item :
  wq_couponCode req ≠ "" →
  discounts w !! wq_couponCode req = Some discount →
  find (λ item, existsb (λ d, String.eqb d (d_id discount))
                  (ci_discount_codes item)) (wq_cart req) = Some item →
  let linePrice :=
    (ToNumber (ci_sale_price item) * ofZ (ci_quantity item))%float in
  ∃ amount,
    (verifyCouponCode req w).2 =
      Json 200 (BCoupon true (d_discountValue discount) amount
        (Some (ci_id item)) (Some (d_discountType discount))
        "Discount applied to 1 eligible product") ∧
    (∀ p printed,
       exact linePrice = Some p → amount_hundredths amount = Some printed →
       (printed <= toFixed2 p)%Z ∧
       (∀ k, p == k # 100 → printed # 100 <= p)%Q) ∧
    (∀ p d,
       exact linePrice = Some p →
       exact (rawDiscount discount linePrice) = Some d →
       (Qabs p < 1000000000000000000000)%Q →
       (Qabs d < 1000000000000000000000)%Q →
       is_Some (amount_hundredths amount)).
Proof.
  intros Hcode Hd Hfind linePrice.
  rewrite (verifyCouponCode_match _ _ _ _ Hcode Hd Hfind). eexists.
  split; [reflexivity|]. fold linePrice. split.
  - intros p printed Hp Hprinted.
    apply Number_toFixed2_printed in Hprinted as (m & Hm & ->).
    pose proof (Math_min_le_r _ _ _ _ Hp Hm) as Hmp.
    pose proof (toFixed2_mono _ _ Hmp) as Hle.
    split; [exact Hle|].
    intros k Hk. rewrite (toFixed2_hundredths k _ Hk) in Hle.
    apply Qle_trans with (k # 100)%Q; [|rewrite Hk; apply Qle_refl].
    unfold Qle. cbn [Qnum Qden]. lia.
  - intros p d Hp Hdis Hpsize Hdsize.
    destruct (Math_min_exact _ _ _ _ Hdis Hp) as (m & Hm & Hmin).
    exists (toFixed2 m). apply Number_toFixed2_finite; [done|].
    rewrite Hmin. destruct (Q.min_spec d p) as [[_ ->]|[_ ->]]; done.
Qed.

(** ** Further properties of the status update *)

Lemma list_find_updated orderId status (l : list Order) i old :
  list_find (λ o, o_id o = orderId) l = Some (i, old) →
  list_find (λ o, o_id o = orderId) (<[i := set_status status old]> l)
    = Some (i, set_status status old).
Proof.
  intros H. apply list_find_Some in H as (Hi & Hold & Hmin).
  apply list_find_Some. split; [|split].
  - apply list_lookup_insert_eq. by eapply lookup_lt_Some.
  - done.
  - intros j y Hj Hlt. rewrite list_lookup_insert_ne in Hj by lia.
    by eapply Hmin.
Qed.

(** The last status written wins.  Two updates of one order in a row
    leave the table, and answer, as the second alone would: the order
    keeps everything but its status, every other order is untouched, and
    the status before plays no part. *)
Theorem status_last_write_wins orderId s1 s2 w i old :
  orderId ≠ "" →
  s1 ∈ allowedStatuses → s2 ∈ allowedStatuses →
  list_find (λ o, o_id o = orderId) (orders w) = Some (i, old) →
  let once := updateDeliveryStatus (mkStatusRequest orderId s2) w in
  let twice :=
    updateDeliveryStatus (mkStatusRequest orderId s2)
      (updateDeliveryStatus (mkStatusRequest orderId s1) w).1 in
  orders twice.1 = orders once.1 ∧ twice.2 = once.2 ∧
  orders once.1 = <[i := set_status s2 old]> (orders w) ∧
  (∀ j, j ≠ i → orders once.1 !! j = orders w !! j) ∧
  once.2 = Json 200 (BOrderUpdated "Delivery status updated successfully."
             (set_status s2 old)).
Proof.
  intros Hid H1 H2 Hfind once twice. subst once twice.
  rewrite (status_update_accepts (mkStatusRequest orderId s2) w i old)
    by done.
  rewrite (status_update_accepts (mkStatusRequest orderId s1) w i old)
    by done.
  rewrite (status_update_accepts (mkStatusRequest orderId s2) _ i
             (set_status s1 old)) by (try done; by apply list_find_updated).
  simpl. rewrite list_insert_insert_eq.
  repeat split; try done.
  intros j Hj. by rewrite list_lookup_insert_ne.
Qed.

(** ** The scenarios, run *)

Import Scenario.

(** The split of the specification: two pens at 10 in shop A and a book at
    25 in shop B give two orders, of 20 and of 25. *)
Example two_shops_two_orders :
  let w1 := (createOrder secret (verify (paid "S" "u1")) objectId signed
               (pending "S" twoShops)).1 in
  o_shopId <$> orders w1 = ["A"; "B"] ∧
  o_total <$> orders w1 = [20%float; 25%float] ∧
  o_items <$> orders w1
    = [[mkOrderItem "p1" 2 10 None]; [mkOrderItem "p2" 1 25 None]].
Proof. vm_compute. done. Qed.

(** The replay, on the two-shop session stored under "S". *)
Lemma replay_is_noop_witness :
  let run := createOrder secret (verify (paid "S" "u1")) objectId signed in
  let w1 := (run (pending "S" twoShops)).1 in
  redis w1 !! "payment-session:S" = None ∧
  ∃ w2,
    run w1 = (w2, Send 200 "No session found, skipping order creation") ∧
    data w2 = data w1 ∧
    calls w2 = calls w1 ++ [StripeConstructEvent;
                            RedisGet "payment-session:S"].
Proof.
  apply (replay_is_noop secret (verify (paid "S" "u1")) objectId signed
           "valid" (paid "S" "u1") twoShops (pending "S" twoShops));
    [reflexivity | done | reflexivity | reflexivity
    | vm_compute; reflexivity | done | vm_compute; reflexivity].
Defined.

(** One order per shop, on the two-shop session stored under "S": the
    pens' order, of 20, and the book's, of 25. *)
Lemma one_order_per_shop_witness :
  ∃ w1,
    createOrder secret (verify (paid "S" "u1")) objectId signed
      (pending "S" twoShops) = (w1, Json 200 BReceived) ∧
    orders w1 =
      [mkOrder "order-0" "u1" "A" 20 "Paid" None None 0
         [mkOrderItem "p1" 2 10 None];
       mkOrder "order-1" "u1" "B" 25 "Paid" None None 0
         [mkOrderItem "p2" 1 25 None]].
Proof.
  destruct (one_order_per_shop secret (verify (paid "S" "u1")) objectId signed
              "valid" (paid "S" "u1") twoShops (pending "S" twoShops))
    as (w1 & new & Hrun & _);
    [reflexivity | done | reflexivity | reflexivity
    | vm_compute; reflexivity
    | unfold in_catalog; apply (bool_decide_unpack _); vm_compute; exact I
    | apply (bool_decide_unpack _); vm_compute; exact I |].
  exists w1. split; [exact Hrun|].
  change w1 with (w1, Json 200 BReceived).1. rewrite <- Hrun.
  vm_compute. reflexivity.
Defined.

(** C3, where it fails.  A flat coupon of 50 cached on a lamp of 30: the
    webhook subtracts the whole 50, more than the line's price, and stores
    an order whose total is negative, so the discount subtracted at
    materialization is not a clamped one. *)
Lemma cached_discount_not_clamped :
  let w1 := (createOrder secret (verify (paid "C" "u1")) objectId signed
               (pending "C" withFlatFifty)).1 in
  s_coupon withFlatFifty = Some flatFifty ∧
  cp_discountedProductId flatFifty = Some (ci_id lamp) ∧
  spec_shopLines "A" (s_cart withFlatFifty) = [lamp] ∧
  (ofZ (ci_quantity lamp) * ci_sale_price lamp)%float = 30%float ∧
  ∃ o,
    orders w1 = [o] ∧ o_shopId o = "A" ∧
    spec_shopTotal [lamp] = 30%float ∧
    o_total o = (-20)%float ∧
    (spec_shopTotal [lamp] - o_total o)%float = 50%float ∧
    (30 <? 50)%float = true ∧
    (o_total o <? 0)%float = true.
Proof.
  split; [reflexivity|]. split; [reflexivity|].
  split; [vm_compute; reflexivity|]. split; [vm_compute; reflexivity|].
  eexists. split; [vm_compute; reflexivity|].
  repeat split; vm_compute; reflexivity.
Qed.

(** A cached coupon of ten percent on two pens at 10: the group's order
    is stored with the sum, 20, less the discount, 2. *)
Lemma group_discount_as_cached_witness :
  let w := pending "T" withTenPercent in
  let run := materializeGroup objectId "payment-session:T" "T" "u1"
               withTenPercent (Some "Ann") (Some "ann@example.com")
               [("A", [pen])] ("A", [pen]) w in
  ∃ o,
    orders run.1 = orders w ++ [o] ∧
    o_shopId o = "A" ∧
    o_total o = 18%float ∧
    o_discountAmount o = 2%float ∧
    o_couponCode o = Some "SAVE10".
Proof.
  intros w run.
  destruct (group_discount_as_cached objectId "payment-session:T" "T" "u1"
              withTenPercent (Some "Ann") (Some "ann@example.com")
              [("A", [pen])] ("A", [pen]) w run.1 run.2 tenPercent "p1" pen)
    as (o & Horders & Hshop & Htotal & Hamount & Hcode & _);
    [apply surjective_pairing | reflexivity | reflexivity | done
    | reflexivity |].
  exists o. split; [exact Horders|]. split; [exact Hshop|].
  split; [rewrite Htotal; vm_compute; reflexivity|].
  split; [rewrite Hamount; vm_compute; reflexivity|].
  rewrite Hcode. reflexivity.
Defined.

(** Doubles round.  A cached coupon of a hundred percent on three sweets
    at 0.07: the discount the webhook computes is greater than the price
    of the line as the sum has it, and the order's total is below zero. *)
Example all_off_exceeds_line :
  let w1 := (createOrder secret (verify (paid "D" "u1")) objectId signed
               (pending "D" withAllOff)).1 in
  let linePrice := spec_shopTotal [sweet] in
  let discount :=
    (ci_sale_price sweet * ofZ (ci_quantity sweet)
       * cp_discountPercent allOff / 100)%float in
  (linePrice <? discount)%float = true ∧
  ∃ o, orders w1 = [o] ∧ o_total o = (linePrice - discount)%float ∧
       (o_total o <? 0)%float = true.
Proof.
  split; [vm_compute; reflexivity|].
  eexists. split; [vm_compute; reflexivity|].
  split; vm_compute; reflexivity.
Qed.

(** The sum of a group is a sum of doubles: a gum at 0.1 and a mint at
    0.2 are ordered for 0.30000000000000004, which is not three
    tenths. *)
Example doubles_sum_as_stored :
  let w1 := (createOrder secret (verify (paid "E" "u1")) objectId signed
               (pending "E" smallChange)).1 in
  o_total <$> orders w1 = [0x1.3333333333334p-2%float] ∧
  ∃ q, exact 0x1.3333333333334p-2 = Some q ∧ (3 # 10 < q)%Q.
Proof.
  split; [vm_compute; reflexivity|].
  eexists. split; [lazy; reflexivity|]. by vm_compute.
Qed.

(** Ten percent of an atlas at 10.05: the double computed is just below
    1.005, and the reply carries "1.00". *)
Example ten_percent_of_an_atlas :
  (verifyCouponCode (mkCouponRequest (Some "u1") "SAVE10" [atlas]) base).2 =
    Json 200 (BCoupon true 10 (Decimal2 false 100) (Some "p8")
      (Some "percentage") "Discount applied to 1 eligible product").
Proof. vm_compute. reflexivity. Qed.

(** The clamp of the specification: a flat coupon of 50 on a lamp of 30
    is answered with "30.00". *)
Example flat_fifty_on_thirty :
  (verifyCouponCode (mkCouponRequest (Some "u1") "FLAT50" [pen; lamp])
     base).2 =
    Json 200 (BCoupon true 50 (Decimal2 false 3000) (Some "p3") (Some "flat")
      "Discount applied to 1 eligible product").
Proof. vm_compute. reflexivity. Qed.

(** C4, where it fails.  Ten percent on a card of 1.25 is 0.125; the
    reply carries "0.13", which is not [min(d, linePrice)]. *)
Lemma coupon_amount_is_rounded :
  let req := mkCouponRequest (Some "u1") "SAVE10" [card] in
  let linePrice := (ci_sale_price card * ofZ (ci_quantity card))%float in
  let d := (linePrice * 10 / 100)%float in
  ∃ amount,
    (verifyCouponCode req base).2 =
      Json 200 (BCoupon true 10 amount (Some "p4") (Some "percentage")
        "Discount applied to 1 eligible product") ∧
    amount = Decimal2 false 13 ∧
    Math_min d linePrice = 0.125%float ∧
    ∃ m v, exact (Math_min d linePrice) = Some m ∧
           amount_value amount = Some v ∧
           (m == 1 # 8)%Q ∧ (v == 13 # 100)%Q ∧ ¬ (v == m)%Q.
Proof.
  eexists. split; [vm_compute; reflexivity|].
  split; [reflexivity|]. split; [vm_compute; reflexivity|].
  eexists _, _. split; [vm_compute; reflexivity|].
  split; [vm_compute; reflexivity|]. repeat split; by vm_compute.
Qed.

(** The clamp, on the flat coupon of 50 and the lamp of 30: the reply
    carries "30.00". *)
Lemma coupon_discount_clamped_witness :
  (verifyCouponCode (mkCouponRequest (Some "u1") "FLAT50" [pen; lamp])
     base).2 =
    Json 200 (BCoupon true 50 (Decimal2 false 3000) (Some "p3") (Some "flat")
      "Discount applied to 1 eligible product") ∧
  ∃ m printed,
    exact (Math_min 50 (30 * ofZ 1)) = Some m ∧ (m == 30)%Q ∧
    amount_hundredths (Decimal2 false 3000) = Some printed ∧
    (m - (1 # 200) <= printed # 100 <= m + (1 # 200))%Q.
Proof.
  destruct (coupon_discount_clamped
              (mkCouponRequest (Some "u1") "FLAT50" [pen; lamp]) base
              (mkDiscount "d50" "flat" 50) lamp)
    as (Hreply & Hmin & Hprint & _);
    [done | vm_compute; reflexivity | reflexivity |].
  split; [rewrite Hreply; vm_compute; reflexivity|].
  edestruct Hmin as (m & Hm & Hmin'); [lazy; reflexivity..|].
  destruct (Hprint m Hm) as (printed & Hprinted & Hnear).
  { rewrite Hmin'. by vm_compute. }
  exists m, printed. split; [exact Hm|].
  split; [rewrite Hmin'; by vm_compute|].
  split; [exact Hprinted | exact Hnear].
Defined.

(** Any cart of two or more lines makes [createPaymentSession] fail on
    the comparator of its sort, before the store is read. *)
Lemma createPaymentSession_two_lines uuid req a b cart w :
  sr_cart req = Some (a :: b :: cart) →
  createPaymentSession uuid req w
    = (w, Next (TypeError "a.id.localCompare is not a function")).
Proof. intros H. unfold createPaymentSession. by rewrite H. Qed.

(** C5, at the input where the code departs from it.  The same one-line
    cart is posted twice by the same owner.  The first call stores the
    session under the key "payment-session: 7f3a", with a space, and
    answers "7f3a"; the second finds it, stores nothing and calls no
    catalog, but answers " 7f3a", the key's second field, which is not the
    id the first call returned.  A cart of two lines, in either order, is
    refused with a TypeError and stores no session at all. *)
Theorem repeated_session_other_id :
  let req := mkSessionRequest "u1" (Some [pen]) None None in
  let first := createPaymentSession "7f3a" req base in
  let second := createPaymentSession "91bc" req first.1 in
  first.2 = Json 201 (BSessionId (Some "7f3a")) ∧
  redis first.1 !! "payment-session: 7f3a"
    = Some (mkSession "u1" [pen] [mkSellerData "A" "sA" None] 20
              None None) ∧
  redis first.1 !! "payment-session:7f3a" = None ∧
  second.2 = Json 200 (BSessionId (Some " 7f3a")) ∧
  second.2 ≠ Json 200 (BSessionId (Some "7f3a")) ∧
  redis second.1 = redis first.1 ∧
  calls second.1 = calls first.1 ++
    [RedisKeys "payment-session:*"; RedisGet "payment-session: 7f3a"] ∧
  createPaymentSession "7f3a"
    (mkSessionRequest "u1" (Some [pen; book]) None None) base
    = (base, Next (TypeError "a.id.localCompare is not a function")) ∧
  createPaymentSession "91bc"
    (mkSessionRequest "u1" (Some [book; pen]) None None) base
    = (base, Next (TypeError "a.id.localCompare is not a function")).
Proof.
  intros req first second.
  split; [vm_compute; reflexivity|].
  split; [vm_compute; reflexivity|].
  split; [vm_compute; reflexivity|].
  assert (Hsecond : second.2 = Json 200 (BSessionId (Some " 7f3a")))
    by (vm_compute; reflexivity).
  split; [exact Hsecond|].
  split; [rewrite Hsecond; discriminate|].
  split; [vm_compute; reflexivity|].
  split; [vm_compute; reflexivity|].
  split; reflexivity.
Qed.

(** A forged signature on an event whose session is waiting. *)
Lemma bad_signature_rejected_witness :
  ∃ w' text,
    createOrder secret (verify (paid "S" "u1")) objectId forged
      (pending "S" twoShops) = (w', Send 400 text) ∧
    data w' = data (pending "S" twoShops) ∧
    (calls w' = calls (pending "S" twoShops) ∨
     calls w' = calls (pending "S" twoShops) ++ [StripeConstructEvent]).
Proof.
  apply (bad_signature_rejected secret (verify (paid "S" "u1")) objectId
           forged (pending "S" twoShops)).
  right. right. exists "forged", "No signatures found matching the expected signature".
  split; reflexivity.
Defined.

(** C7, at the input where the code departs from it.  A cart over two
    shops is materialized once.  The mail, the sellers' notifications and
    the administrator's notification are sent inside the loop over the
    shops, so the buyer is mailed twice, each of the two sellers is
    notified twice and the administrator twice. *)
Theorem two_shops_fan_out_twice :
  let run := createOrder secret (verify (paid "S" "u1")) objectId signed
               (pending "S" twoShops) in
  run.2 = Json 200 BReceived ∧
  length (orders run.1) = 2%nat ∧
  e_to <$> emails run.1
    = [Some "ann@example.com"; Some "ann@example.com"] ∧
  n_receiverId <$> notifications run.1
    = ["sA"; "sB"; "admin"; "sA"; "sB"; "admin"].
Proof. vm_compute. done. Qed.

(** C8, where it fails.  An order that is "Delivered" is set back to
    "Packed", which is no move forward in the specification's sequence,
    and it can be set to "Ordered", which that sequence does not have. *)
Lemma status_moves_backward :
  let back := updateDeliveryStatus (mkStatusRequest "order-0" "Packed")
                delivered in
  let out := updateDeliveryStatus (mkStatusRequest "order-0" "Ordered")
               delivered in
  o_status <$> orders delivered = ["Delivered"] ∧
  o_status <$> orders back.1 = ["Packed"] ∧
  ¬ spec_forward "Delivered" "Packed" ∧
  o_status <$> orders out.1 = ["Ordered"] ∧
  "Ordered" ∉ spec_sequence.
Proof.
  repeat split; try (vm_compute; reflexivity).
  - intros (i & j & Hi & Hj & Hlt). vm_compute in Hi, Hj.
    injection Hi as <-. injection Hj as <-. lia.
  - unfold spec_sequence. rewrite !elem_of_cons, elem_of_nil.
    intros H. repeat destruct H as [H|H]; done.
Qed.

(** An order that is "Delivered" is set to "Packed": the status is
    written over, the rest of the order is kept, and the reply carries
    the order as updated. *)
Lemma status_update_within_allowed_witness :
  let run := updateDeliveryStatus (mkStatusRequest "order-0" "Packed")
               delivered in
  let updated :=
    mkOrder "order-0" "u1" "A" 20 "Packed" None None 0
      [mkOrderItem "p1" 2 10 None] in
  o_status <$> orders delivered = ["Delivered"] ∧
  orders run.1 = [updated] ∧
  run.2 = Json 200
            (BOrderUpdated "Delivery status updated successfully." updated).
Proof.
  intros run updated.
  destruct (status_update_within_allowed
              (mkStatusRequest "order-0" "Packed") delivered run.1 run.2
              (surjective_pairing run)) as (Hset & _ & _).
  destruct (Hset 0%nat
              (mkOrder "order-0" "u1" "A" 20 "Delivered" None None 0
                 [mkOrderItem "p1" 2 10 None]))
    as (Horders & _ & Hreply);
    [done | vm_compute; reflexivity
    | apply (bool_decide_unpack _); vm_compute; exact I |].
  split; [reflexivity|]. split; [exact Horders | exact Hreply].
Defined.

(** C9, where it fails.  The code "NOPE" is in no row: the handler hands
    a validation error to [next] and sends no reply of its own, so no
    reply with [valid: false] is returned. *)
Lemma unknown_coupon_is_an_error :
  let resp := (verifyCouponCode
                 (mkCouponRequest (Some "u1") "NOPE" [pen]) base).2 in
  discounts base !! "NOPE" = None ∧
  resp = Next (ValidationError "Coupon code isn't valid!") ∧
  ¬ ∃ status discount amount product type message,
      resp = Json status (BCoupon false discount amount product type message).
Proof.
  split; [vm_compute; reflexivity|]. split; [vm_compute; reflexivity|].
  intros (st & d & a & pr & ty & m & H). vm_compute in H. discriminate H.
Qed.

(** The code "NOPE", posted with a pen in the cart. *)
Lemma unknown_coupon_refused_witness :
  verifyCouponCode (mkCouponRequest (Some "u1") "NOPE" [pen]) base =
    (with_calls (calls base ++ [DbFindUnique "discount_codes" "NOPE"]) base,
     Next (ValidationError "Coupon code isn't valid!")).
Proof.
  apply (unknown_coupon_refused
           (mkCouponRequest (Some "u1") "NOPE" [pen]) base);
    [done | done | vm_compute; reflexivity].
Defined.

(** A verified [charge.refunded] event while a session is waiting. *)
Lemma other_event_acknowledged_witness :
  let w := pending "S" twoShops in
  ∃ w',
    createOrder secret (verify (mkStripeEvent "charge.refunded" "S" "u1"))
      objectId signed w = (w', Json 200 BReceived) ∧
    calls w' = calls w ++ [StripeConstructEvent; SendLog] ∧
    redis w' = redis w ∧ orders w' = orders w ∧
    products w' = products w ∧
    productAnalytics w' = productAnalytics w ∧
    userAnalytics w' = userAnalytics w ∧
    notifications w' = notifications w ∧ emails w' = emails w ∧
    logs w' = logs w ++ [mkLogEntry "success"
      "Stripe webhook processed for session unknown" "order-service"].
Proof.
  apply (other_event_acknowledged secret
           (verify (mkStripeEvent "charge.refunded" "S" "u1")) objectId
           signed "valid" (mkStripeEvent "charge.refunded" "S" "u1")
           (pending "S" twoShops));
    [reflexivity | done | reflexivity | done].
Defined.

(** ** The further properties, on the scenarios *)

Import Further.

(** Shop ids that are array indices are visited in ascending order,
    whatever the order of the cart: the book of shop "9" is ordered
    before the pens of shop "10". *)
Example numbered_shops_ascending :
  let run := createOrder secret (verify (paid "N" "u1")) objectId signed
               (pending "N" numberedShops) in
  ci_shopId <$> s_cart numberedShops = ["10"; "9"] ∧
  run.2 = Json 200 BReceived ∧
  o_shopId <$> orders run.1 = ["9"; "10"] ∧
  o_total <$> orders run.1 = [25%float; 20%float].
Proof. vm_compute. done. Qed.

(** The ghost line comes first in the cart, but its shop, "10", is
    visited after shop "9": the pens are ordered, taken from the stock
    and mailed, and the session is deleted, before the ghost's order is
    stored and the update of its product throws. *)
Example missing_product_in_later_group :
  let w := pending "G" ghostFirst in
  let run := createOrder secret (verify (paid "G" "u1")) objectId signed w in
  run.2 = Next (PrismaError "Record to update not found.") ∧
  o_shopId <$> orders run.1 = ["9"; "10"] ∧
  redis run.1 !! "payment-session:G" = None ∧
  p_stock <$> products run.1 !! "p1" = Some 8%Z ∧
  length (emails run.1) = 1%nat.
Proof. vm_compute. done. Qed.

(** A shop id that names an inherited member stops the grouping: the
    error goes to [next] and nothing is stored. *)
Example inherited_shop_name_throws :
  let w := pending "I" inheritedShop in
  let run := createOrder secret (verify (paid "I" "u1")) objectId signed w in
  run.2 = Next (TypeError "acc[item.shopId].push is not a function") ∧
  orders run.1 = [] ∧ redis run.1 = redis w ∧ products run.1 = products w ∧
  emails run.1 = [] ∧ notifications run.1 = [].
Proof. vm_compute. done. Qed.

(** The pens' row, across a materialization of the two-shop session. *)
Lemma createOrder_conserves_stock_witness :
  let w := pending "S" twoShops in
  let run := createOrder secret (verify (paid "S" "u1")) objectId signed w in
  match products w !! "p1", products run.1 !! "p1" with
  | Some p, Some p' =>
      (p_stock p' + p_totalSales p' = p_stock p + p_totalSales p)%Z
  | None, None => True
  | _, _ => False
  end.
Proof.
  intros w run.
  exact (createOrder_conserves_stock secret (verify (paid "S" "u1")) objectId
           signed w run.1 run.2 (surjective_pairing run) "p1").
Defined.

(** The buyer's one recorded action stays at the head of the log. *)
Lemma createOrder_log_append_only_witness :
  let run := createOrder secret (verify (paid "S" "u1")) objectId signed
               logged in
  ∃ more, userAnalytics run.1 !! "u1" = Some ([viewed] ++ more).
Proof.
  intros run.
  apply (createOrder_log_append_only secret (verify (paid "S" "u1"))
           objectId signed logged run.1 run.2 "u1" [viewed]);
    [apply surjective_pairing | vm_compute; reflexivity].
Defined.

(** Two pens leave the stock of ten. *)
Lemma createOrder_decrements_stock_witness :
  let run := createOrder secret (verify (paid "S" "u1")) objectId signed
               (pending "S" twoShops) in
  products run.1 !! "p1" = Some
    (mkProduct (10 - orderedQty "p1" (s_cart twoShops))
       (0 + orderedQty "p1" (s_cart twoShops))).
Proof.
  intros run.
  apply (createOrder_decrements_stock secret (verify (paid "S" "u1"))
           objectId signed "valid" (paid "S" "u1") twoShops
           (pending "S" twoShops) run.1 "p1" (mkProduct 10 0));
    [reflexivity | done | reflexivity | reflexivity
    | vm_compute; reflexivity | vm_compute; reflexivity
    | vm_compute; reflexivity].
Defined.

(** The two-shop session, whose products all have a row, is
    acknowledged; the pens of a shop called "constructor" are not. *)
Lemma createOrder_acknowledges_iff_witness :
  (createOrder secret (verify (paid "S" "u1")) objectId signed
     (pending "S" twoShops)).2 = Json 200 BReceived ∧
  ∃ e, (createOrder secret (verify (paid "I" "u1")) objectId signed
          (pending "I" inheritedShop)).2 = Next e.
Proof.
  split.
  - set (run := createOrder secret (verify (paid "S" "u1")) objectId signed
                  (pending "S" twoShops)).
    destruct (createOrder_acknowledges_iff secret (verify (paid "S" "u1"))
                objectId signed "valid" (paid "S" "u1") twoShops
                (pending "S" twoShops) run.1 run.2) as [Hiff _];
      [reflexivity | done | reflexivity | reflexivity
      | vm_compute; reflexivity | apply surjective_pairing |].
    apply Hiff. split.
    + unfold in_catalog. apply (bool_decide_unpack _). vm_compute. exact I.
    + apply (bool_decide_unpack _). vm_compute. exact I.
  - set (run := createOrder secret (verify (paid "I" "u1")) objectId signed
                  (pending "I" inheritedShop)).
    destruct (createOrder_acknowledges_iff secret (verify (paid "I" "u1"))
                objectId signed "valid" (paid "I" "u1") inheritedShop
                (pending "I" inheritedShop) run.1 run.2)
      as [Hiff [Hack|Herr]];
      [reflexivity | done | reflexivity | reflexivity
      | vm_compute; reflexivity | apply surjective_pairing | | exact Herr].
    apply Hiff in Hack as [_ Hproto].
    apply Forall_cons in Hproto as [Hno _]. destruct Hno.
    apply (bool_decide_unpack _). vm_compute. exact I.
Defined.

(** The session "S", once materialized. *)
Lemma materialized_session_is_gone_witness :
  let run := createOrder secret (verify (paid "S" "u1")) objectId signed
               (pending "S" twoShops) in
  verifyPaymentSession "S" run.1 =
    (with_calls (calls run.1 ++ [RedisGet "payment-session:S"]) run.1,
     SessionOther (Json 404 (BError "Session not found or expired."))).
Proof.
  intros run.
  apply (materialized_session_is_gone secret (verify (paid "S" "u1"))
           objectId signed "valid" (paid "S" "u1") twoShops
           (pending "S" twoShops) run.1);
    [reflexivity | done | reflexivity | reflexivity
    | vm_compute; reflexivity | done | done | vm_compute; reflexivity].
Defined.

(** Two shops, both with a row: six notifications. *)
Lemma createOrder_notifications_witness :
  let w := pending "S" twoShops in
  let run := createOrder secret (verify (paid "S" "u1")) objectId signed w in
  let n := size (list_to_set (ci_shopId <$> s_cart twoShops) : gset string) in
  length (notifications run.1) = (length (notifications w) + n * (n + 1))%nat.
Proof.
  intros w run.
  apply (createOrder_notifications secret (verify (paid "S" "u1")) objectId
           signed "valid" (paid "S" "u1") twoShops w run.1);
    [reflexivity | done | reflexivity | reflexivity
    | vm_compute; reflexivity
    | apply (bool_decide_unpack _); vm_compute; exact I
    | vm_compute; reflexivity].
Defined.

(** Two shops: two mails. *)
Lemma createOrder_emails_witness :
  let w := pending "S" twoShops in
  let run := createOrder secret (verify (paid "S" "u1")) objectId signed w in
  length (emails run.1) =
    (length (emails w)
       + size (list_to_set (ci_shopId <$> s_cart twoShops) : gset string))%nat.
Proof.
  intros w run.
  apply (createOrder_emails secret (verify (paid "S" "u1")) objectId
           signed "valid" (paid "S" "u1") twoShops w run.1);
    [reflexivity | done | reflexivity | reflexivity
    | vm_compute; reflexivity | vm_compute; reflexivity].
Defined.

(** The ghost line comes first in the cart and has no row. *)
Lemma createOrder_missing_first_product_witness :
  let w := pending "G" withGhost in
  ∃ w1 o,
    createOrder secret (verify (paid "G" "u1")) objectId signed w
      = (w1, Next (PrismaError "Record to update not found.")) ∧
    orders w1 = orders w ++ [o] ∧
    o_shopId o = ci_shopId ghost ∧ o_status o = "Paid" ∧
    o_userId o = ev_userId (paid "G" "u1") ∧
    redis w1 = redis w ∧ products w1 = products w ∧
    emails w1 = emails w ∧ notifications w1 = notifications w.
Proof.
  apply (createOrder_missing_first_product secret (verify (paid "G" "u1"))
           objectId signed "valid" (paid "G" "u1") withGhost ghost [pen]
           (pending "G" withGhost));
    [reflexivity | done | reflexivity | reflexivity
    | vm_compute; reflexivity | reflexivity
    | apply (bool_decide_unpack _); vm_compute; exact I
    | apply (bool_decide_unpack _); vm_compute; exact I
    | vm_compute; reflexivity].
Defined.

(** Bob's session, while Ann posts her cart. *)
Lemma createPaymentSession_spares_others_witness :
  let run := createPaymentSession "7f3a" penRequest withBob in
  redis run.1 !! "payment-session: b0b" = Some bobSession.
Proof.
  intros run.
  apply (createPaymentSession_spares_others "7f3a" penRequest withBob
           run.1 run.2 "payment-session: b0b" bobSession);
    [apply surjective_pairing | vm_compute; reflexivity | done | done].
Defined.

(** Ann's first call, on the empty store. *)
Lemma createPaymentSession_gains_carts_witness :
  gains_carts base (createPaymentSession "7f3a" penRequest base).1.
Proof.
  apply (createPaymentSession_gains_carts "7f3a" penRequest base
           (createPaymentSession "7f3a" penRequest base).1
           (createPaymentSession "7f3a" penRequest base).2).
  apply surjective_pairing.
Defined.

Lemma created_session_contents_witness :
  let w' := (createPaymentSession "7f3a" penRequest base).1 in
  ∃ item session,
    sr_cart penRequest = Some [item] ∧
    BSessionId (Some "7f3a") = BSessionId (Some "7f3a") ∧
    redis w' !! ("payment-session: " +:+ "7f3a") = Some session ∧
    s_userId session = sr_userId penRequest ∧
    s_cart session = [JSON_item item] ∧
    s_totalAmount session =
      JSON_number
        (0 + ofZ (ci_quantity item) * ToNumber (ci_sale_price item))%float ∧
    s_coupon session = JSON_coupon <$> sr_coupon penRequest ∧
    s_shippingAddressId session = or_null (sr_selectedAddressId penRequest) ∧
    s_sellers session =
      match shops base !! ci_shopId item with
      | Some shop =>
          [mkSellerData (ci_shopId item) (sh_sellerId shop) (sh_stripeId shop)]
      | None => []
      end.
Proof.
  intros w'.
  apply (created_session_contents "7f3a" penRequest base w'
           (BSessionId (Some "7f3a"))).
  vm_compute. reflexivity.
Defined.

(** Ann posts the pen again, her session being the one stored: the keys
    are listed, her session is read, and that is all. *)
Lemma identical_cart_reuses_session_witness :
  ∃ w',
    createPaymentSession "91bc" penRequest stored
      = (w', Json 200 (BSessionId (Some " 7f3a"))) ∧
    data w' = data stored ∧
    calls w' = [RedisKeys "payment-session:*";
                RedisGet "payment-session: 7f3a"] ∧
    (verifyPaymentSession " 7f3a" w').2 = SessionFound 200 penSession.
Proof.
  destruct (identical_cart_reuses_session "91bc" penRequest pen " 7f3a"
              penSession stored)
    as (w' & before & Hrun & Hdata & Hcalls & Hverify);
    [reflexivity | reflexivity | done | vm_compute; reflexivity
    | reflexivity | reflexivity | |].
  { intros k' s' H _. simpl in H.
    apply lookup_singleton_Some in H as [<- _]. reflexivity. }
  exists w'. split; [exact Hrun|]. split; [exact Hdata|].
  split; [|exact Hverify].
  change w' with (w', Json 200 (BSessionId (Some " 7f3a"))).1.
  rewrite <- Hrun. vm_compute. reflexivity.
Defined.

(** The id "7f3a", fresh from [createPaymentSession], then paid. *)
Lemma fresh_session_is_unreachable_witness :
  let w' := (createPaymentSession "7f3a" penRequest base).1 in
  (verifyPaymentSession "7f3a" w').2
    = SessionOther (Json 404 (BError "Session not found or expired.")) ∧
  ∃ w'',
    createOrder secret (verify (paid "7f3a" "u1")) objectId signed w'
      = (w'', Send 200 "No session found, skipping order creation") ∧
    data w'' = data w'.
Proof.
  intros w'.
  apply (fresh_session_is_unreachable secret (verify (paid "7f3a" "u1"))
           objectId "7f3a" penRequest base w'
           (createPaymentSession "7f3a" penRequest base).2
           signed "valid" (paid "7f3a" "u1"));
    [apply surjective_pairing | done | vm_compute; reflexivity
    | reflexivity | done | reflexivity | reflexivity | reflexivity].
Defined.

(** The flat coupon exists; the pen does not carry it. *)
Lemma coupon_without_matching_line_witness :
  verifyCouponCode (mkCouponRequest (Some "u1") "FLAT50" [pen]) base =
    (with_calls (calls base ++ [DbFindUnique "discount_codes" "FLAT50"]) base,
     Json 200 (BCoupon false 0 (Number 0) None None
       "No matching product found in the cart for this coupon!")).
Proof.
  apply (coupon_without_matching_line
           (mkCouponRequest (Some "u1") "FLAT50" [pen]) base
           (mkDiscount "d50" "flat" 50));
    [done | done | vm_compute; reflexivity
    | apply (bool_decide_unpack _); vm_compute; exact I].
Defined.

(** Ten percent on the card of 1.25: "0.13", within the 1.25. *)
Lemma coupon_amount_within_line_witness :
  let req := mkCouponRequest (Some "u1") "SAVE10" [card] in
  ∃ amount p,
    (verifyCouponCode req base).2 =
      Json 200 (BCoupon true 10 amount (Some "p4") (Some "percentage")
        "Discount applied to 1 eligible product") ∧
    amount = Decimal2 false 13 ∧
    exact (ToNumber (ci_sale_price card) * ofZ (ci_quantity card))
      = Some p ∧
    (p == 125 # 100)%Q ∧
    (13 <= toFixed2 p)%Z ∧ (13 # 100 <= p)%Q.
Proof.
  intros req.
  destruct (coupon_amount_within_line req base
              (mkDiscount "d10" "percentage" 10) card)
    as (amount & Hreply & Hbound & _);
    [done | vm_compute; reflexivity | reflexivity |].
  assert (Hamount : amount = Decimal2 false 13).
  { vm_compute in Hreply. by injection Hreply as <-. }
  eexists amount, _. split; [exact Hreply|]. split; [exact Hamount|].
  split; [lazy; reflexivity|]. split; [by vm_compute|].
  edestruct Hbound as [Hle Hwhole]; [lazy; reflexivity | |].
  { rewrite Hamount. reflexivity. }
  split; [exact Hle|]. apply (Hwhole 125%Z). by vm_compute.
Defined.

(** A paid order set to "Packed" and then to "Shipped". *)
Lemma status_last_write_wins_witness :
  let old := mkOrder "order-0" "u1" "A" 20 "Paid" None None 0
               [toOrderItem pen] in
  let once := updateDeliveryStatus (mkStatusRequest "order-0" "Shipped")
                justPaid in
  let twice :=
    updateDeliveryStatus (mkStatusRequest "order-0" "Shipped")
      (updateDeliveryStatus (mkStatusRequest "order-0" "Packed") justPaid).1 in
  orders twice.1 = orders once.1 ∧ twice.2 = once.2 ∧
  orders once.1 = <[0%nat := set_status "Shipped" old]> (orders justPaid) ∧
  (∀ j, j ≠ 0%nat → orders once.1 !! j = orders justPaid !! j) ∧
  once.2 = Json 200 (BOrderUpdated "Delivery status updated successfully."
             (set_status "Shipped" old)).
Proof.
  intros old.
  apply (status_last_write_wins "order-0" "Packed" "Shipped" justPaid
           0%nat old);
    [done
    | apply (bool_decide_unpack _); vm_compute; exact I
    | apply (bool_decide_unpack _); vm_compute; exact I
    | vm_compute; reflexivity].
Defined.
